(** * great_expectations/data_context/util.py

    A shallow embedding of the configuration utilities of
    [great_expectations.data_context.util]:

    - [find_substitution_candidates], the placeholder finder: a brace form
      (dollar, opening brace, any characters but a newline up to the first
      closing brace) or a bare form (dollar, then a name that starts with a
      letter or an underscore and goes on with letters, digits and
      underscores);
    - [substitute_config_variable], the single-string substitution engine;
    - [substitute_all_config_variables], the traversal of nested
      configuration values;
    - [instantiate_class_from_config], the class instantiator.

    Python values are a tree type [pyval]; a [dict] is an association list
    in insertion order with unique keys; an exception is a value of [exn];
    a call either returns, raises, or (for the [while] loop of the engine,
    which is driven by fuel) runs out of fuel. *)

From Stdlib Require Import String Ascii List Arith ZArith Bool Lia Sorted.
Import ListNotations.
Local Open Scope list_scope.
Local Open Scope string_scope.

Set Warnings "-register-all".

(* ================================================================== *)
(** ** Python values, exceptions and outcomes *)

(** The values that occur in configuration structures. Keys of a mapping
    are strings; a mapping keeps its items in insertion order. *)
Inductive pyval : Type :=
| VNone : pyval
| VBool : bool -> pyval
| VInt : Z -> pyval
| VStr : string -> pyval
| VList : list pyval -> pyval
| VDict : list (string * pyval) -> pyval.

Definition pydict : Type := list (string * pyval).

(** Exceptions, by kind. Messages are dropped, except for the data an
    exception carries for its caller. *)
Inductive exn : Type :=
| KeyError : exn
| TypeError : exn
| MissingConfigVariableError (missing_config_variable : string) : exn
| Exception_ : exn
| OtherError (tag : string) : exn.

Inductive outcome (A : Type) : Type :=
| Returns : A -> outcome A
| Raises : exn -> outcome A
| OutOfFuel : outcome A.

Arguments Returns {A} _.
Arguments Raises {A} _.
Arguments OutOfFuel {A}.

Definition bind {A B : Type} (m : outcome A) (k : A -> outcome B) : outcome B :=
  match m with
  | Returns a => k a
  | Raises e => Raises e
  | OutOfFuel => OutOfFuel
  end.

Notation "x <- m ;; k" := (bind m (fun x => k))
  (at level 61, m at next level, right associativity).

(** A list or dict comprehension whose body may raise: the items are
    computed left to right and the first failure ends it. *)
Definition comprehension {A B : Type} (body : A -> outcome B)
  : list A -> outcome (list B) :=
  fix each (l : list A) : outcome (list B) :=
    match l with
    | [] => Returns []
    | a :: l' =>
        b <- body a ;;
        rest <- each l' ;;
        Returns (b :: rest)
    end.

Definition isinstance_str (v : pyval) : bool :=
  match v with VStr _ => true | _ => false end.

(* ================================================================== *)
(** ** Mappings *)

Fixpoint dict_get {V : Type} (d : list (string * V)) (k : string) : option V :=
  match d with
  | [] => None
  | (k', v) :: d' => if String.eqb k' k then Some v else dict_get d' k
  end.

Definition dict_contains {V : Type} (d : list (string * V)) (k : string) : bool :=
  match dict_get d k with Some _ => true | None => false end.

Fixpoint dict_remove {V : Type} (d : list (string * V)) (k : string) : list (string * V) :=
  match d with
  | [] => []
  | (k', v) :: d' =>
      if String.eqb k' k then dict_remove d' k else (k', v) :: dict_remove d' k
  end.

(** [d[k] = v]: an existing key keeps its place, a new key goes last. *)
Fixpoint dict_set {V : Type} (d : list (string * V)) (k : string) (v : V) : list (string * V) :=
  match d with
  | [] => [(k, v)]
  | (k', v') :: d' =>
      if String.eqb k' k then (k', v) :: d' else (k', v') :: dict_set d' k v
  end.

(** [d.update(other)] *)
Definition dict_update {V : Type} (d other : list (string * V)) : list (string * V) :=
  fold_left (fun acc kv => dict_set acc (fst kv) (snd kv)) other d.

Definition dict_keys {V : Type} (d : list (string * V)) : list string := map fst d.

(* ================================================================== *)
(** ** Strings: slicing and character classes *)

(** [s[:n]], clamped at the end of the string as Python slicing is. *)
Fixpoint slice_to (n : nat) (s : string) : string :=
  match n, s with
  | S n', String c s' => String c (slice_to n' s')
  | _, _ => EmptyString
  end.

(** [s[n:]], clamped likewise. *)
Fixpoint slice_from (n : nat) (s : string) : string :=
  match n, s with
  | S n', String _ s' => slice_from n' s'
  | _, _ => s
  end.

Definition in_range (lo hi : nat) (c : ascii) : bool :=
  Nat.leb lo (nat_of_ascii c) && Nat.leb (nat_of_ascii c) hi.

Definition is_digit (c : ascii) : bool := in_range 48 57 c.

(** First character of a bare name: underscore or ASCII letter. *)
Definition is_ident_start (c : ascii) : bool :=
  Ascii.eqb c "_" || in_range 97 122 c || in_range 65 90 c.

(** Later characters of a bare name: also the ASCII digits. *)
Definition is_ident_char (c : ascii) : bool :=
  is_ident_start c || is_digit c.

Definition newline : ascii := ascii_of_nat 10.

(* ================================================================== *)
(** ** The regular expression of [find_substitution_candidates] *)

(** The lazy body of the brace form at the head of [s]: the number of
    characters before the first closing brace, provided no newline comes before it ([.] does not match
    a newline). *)
Fixpoint brace_body (s : string) : option nat :=
  match s with
  | EmptyString => None
  | String c s' =>
      if Ascii.eqb c "}" then Some 0
      else if Ascii.eqb c newline then None
      else option_map S (brace_body s')
  end.

(** The tail of a bare name, greedy: the length of the longest prefix of name
    characters. *)
Fixpoint ident_tail (s : string) : nat :=
  match s with
  | EmptyString => 0
  | String c s' => if is_ident_char c then S (ident_tail s') else 0
  end.

(** The whole pattern anchored at the head of [s]: the length of the match,
    the brace alternative first. After [${] the bare alternative cannot
    match, since [{] does not start a name. *)
Definition match_at (s : string) : option nat :=
  match s with
  | String "$" (String c s') =>
      if Ascii.eqb c "{" then option_map (fun n => n + 3) (brace_body s')
      else if is_ident_start c then Some (2 + ident_tail s')
      else None
  | _ => None
  end.

(** [str.replace(ch, "")] for the three characters removed from a match. *)
Fixpoint clean (s : string) : string :=
  match s with
  | EmptyString => EmptyString
  | String c s' =>
      if Ascii.eqb c "$" || Ascii.eqb c "{" || Ascii.eqb c "}"
      then clean s' else String c (clean s')
  end.

Record candidate : Type := mkCandidate {
  match_ : string;
  clean_match : string;
  start : nat;
  end_ : nat
}.

(** [re.finditer]: non-overlapping matches, left to right. [pos] is the
    offset of the head of [s] in the template; [skip] counts the characters
    of the previous match that are still to be passed over. *)
Fixpoint finditer (s : string) (pos skip : nat) : list candidate :=
  match s with
  | EmptyString => []
  | String _ s' =>
      match skip with
      | S k => finditer s' (S pos) k
      | O =>
          match match_at s with
          | Some len =>
              let dirty_match := slice_to len s in
              mkCandidate dirty_match (clean dirty_match) pos (pos + len)
                :: finditer s' (S pos) (len - 1)
          | None => finditer s' (S pos) 0
          end
      end
  end.

Definition scan (template_str : string) : list candidate :=
  finditer template_str 0 0.

(** [re.finditer] accepts a string only; any other value is a [TypeError]. *)
Definition find_substitution_candidates (template_str : pyval)
  : outcome (list candidate) :=
  match template_str with
  | VStr s => Returns (scan s)
  | _ => Raises TypeError
  end.

(* ================================================================== *)
(** ** [substitute_config_variable] *)

(** The process environment, read only. *)
Definition environ : Type := list (string * string).

Definition os_getenv (env : environ) (name : string) : option string :=
  dict_get env name.

(** [if env_variable:] holds for a variable that is set to a non-empty
    string. *)
Definition truthy (env_variable : option string) : bool :=
  match env_variable with
  | Some (String _ _) => true
  | _ => false
  end.

(** [template_str[:start] + value + template_str[end:]] *)
Definition splice (template_str : string) (c : candidate) (value : string) : string :=
  slice_to (start c) template_str ++ value ++ slice_from (end_ c) template_str.

Section Substitution.

Variable env : environ.

(** The [while] loop over the queue of candidates. One unit of fuel is
    spent per iteration. Concatenating a string with a value of the
    variable store that is not a string is a [TypeError]. *)
Fixpoint while_candidates (fuel : nat) (template_str : string)
         (substitution_candidates : list candidate)
         (config_variables_dict : pydict) : outcome pyval :=
  match substitution_candidates with
  | [] => Returns (VStr template_str)
  | substitution_candidate :: queue =>
      match fuel with
      | O => OutOfFuel
      | S fuel' =>
          let name := clean_match substitution_candidate in
          match os_getenv env name with
          | Some (String a e) =>
              while_candidates fuel'
                (splice template_str substitution_candidate (String a e))
                queue config_variables_dict
          | _ =>
              match dict_get config_variables_dict name with
              | Some (VStr value) =>
                  let template_str' :=
                    splice template_str substitution_candidate value in
                  while_candidates fuel' template_str' (scan template_str')
                    config_variables_dict
              | Some _ => Raises TypeError
              | None => Raises (MissingConfigVariableError name)
              end
          end
      end
  end.

(** The branch taken when the first scan finds exactly one candidate.
    Popping it leaves the queue empty, so the loop that follows returns
    the spliced string as it is. *)
Definition single_candidate (fuel : nat) (template_str : string)
           (substitution_candidate : candidate)
           (config_variables_dict : pydict) : outcome pyval :=
  let name := clean_match substitution_candidate in
  match os_getenv env name with
  | Some (String a e) =>
      while_candidates fuel
        (splice template_str substitution_candidate (String a e))
        [] config_variables_dict
  | _ =>
      match dict_get config_variables_dict name with
      | Some (VStr value) =>
          while_candidates fuel
            (splice template_str substitution_candidate value)
            [] config_variables_dict
      | Some value =>
          if String.eqb (match_ substitution_candidate) template_str
          then Returns value
          else Raises Exception_
      | None => Raises (MissingConfigVariableError name)
      end
  end.

Definition substitute_config_variable (fuel : nat) (template_str : pyval)
           (config_variables_dict : pydict) : outcome pyval :=
  match template_str with
  | VNone => Returns template_str
  | _ =>
      substitution_candidates <- find_substitution_candidates template_str ;;
      match template_str with
      | VStr s =>
          match substitution_candidates with
          | [substitution_candidate] =>
              single_candidate fuel s substitution_candidate
                config_variables_dict
          | _ =>
              while_candidates fuel s substitution_candidates
                config_variables_dict
          end
      | _ => Raises TypeError
      end
  end.

(** [substitute_all_config_variables]: mappings and lists are rebuilt
    item by item, left to right; the first item that raises ends the
    traversal. Anything else is a leaf. (A [DataContextConfig] object is
    first dumped to a plain mapping by its schema, which is defined in
    another module; [pyval] starts from the plain values.) *)
Fixpoint substitute_all_config_variables (fuel : nat) (data : pyval)
         (replace_variables_dict : pydict) : outcome pyval :=
  match data with
  | VDict items =>
      items' <-
        comprehension
          (fun '(k, v) =>
             v' <- substitute_all_config_variables fuel v replace_variables_dict ;;
             Returns (k, v'))
          items ;;
      Returns (VDict items')
  | VList elems =>
      elems' <-
        comprehension
          (fun v => substitute_all_config_variables fuel v replace_variables_dict)
          elems ;;
      Returns (VList elems')
  | _ => substitute_config_variable fuel data replace_variables_dict
  end.

End Substitution.

(* ================================================================== *)
(** ** [instantiate_class_from_config] *)

(** The mappings the caller hands over are objects of a store, named by
    their position in it; [config_defaults] is mutated in place. The
    private copy of [config] and the merged keyword arguments never leave
    the function and are kept as local values. *)
Definition loc : Type := nat.

(** What the function does to its collaborators, in order. *)
Inductive event : Type :=
| EvVerify (module_name : pyval)
| EvWarning (name : option pyval)
| EvLoadClass (class_name module_name : pyval)
| EvConstruct (kwargs : pydict).

(** A loaded class: the positional parameter names of its [__init__]
    (first component of [inspect.getfullargspec], [self] included) and the
    result of calling it with keyword arguments. *)
Record pyclass : Type := mkClass {
  getfullargspec_args : list string;
  construct : pydict -> outcome pyval
}.

Record world : Type := mkWorld {
  heap : list pydict;
  log : list event
}.

Definition M (A : Type) : Type := world -> outcome A * world.

Definition ret {A : Type} (a : A) : M A := fun w => (Returns a, w).

Definition raise {A : Type} (e : exn) : M A := fun w => (Raises e, w).

(** Sequencing: an exception ends the run and keeps the store as it is at
    that point. *)
Definition bindM {A B : Type} (m : M A) (k : A -> M B) : M B :=
  fun w =>
    match m w with
    | (Returns a, w') => k a w'
    | (Raises e, w') => (Raises e, w')
    | (OutOfFuel, w') => (OutOfFuel, w')
    end.

Notation "x <~ m ;; k" := (bindM m (fun x => k))
  (at level 61, m at next level, right associativity).

Definition lift {A : Type} (o : outcome A) : M A := fun w => (o, w).

Definition emit (e : event) : M unit :=
  fun w => (Returns tt, mkWorld (heap w) (log w ++ [e])%list).

Fixpoint heap_set (h : list pydict) (l : loc) (d : pydict) : list pydict :=
  match h, l with
  | [], _ => []
  | _ :: h', O => d :: h'
  | d' :: h', S l' => d' :: heap_set h' l' d
  end.

Definition alloc (d : pydict) : M loc :=
  fun w => (Returns (length (heap w)), mkWorld (heap w ++ [d])%list (log w)).

(** Reading an object; a name that denotes no object of the store does not
    occur in a run that starts from the caller's own objects. *)
Definition load (l : loc) : M pydict :=
  fun w =>
    match nth_error (heap w) l with
    | Some d => (Returns d, w)
    | None => (Raises (OtherError "dangling reference"), w)
    end.

Definition store (l : loc) (d : pydict) : M unit :=
  fun w => (Returns tt, mkWorld (heap_set (heap w) l d) (log w)).

(** [obj.pop(key)] *)
Definition pop (l : loc) (key : string) : M pyval :=
  d <~ load l ;;
  match dict_get d key with
  | Some v => _ <~ store l (dict_remove d key) ;; ret v
  | None => raise KeyError
  end.

(** [obj.pop(key, default)] *)
Definition pop_default (l : loc) (key : string) (default : pyval) : M pyval :=
  d <~ load l ;;
  match dict_get d key with
  | Some v => _ <~ store l (dict_remove d key) ;; ret v
  | None => ret default
  end.

(** [local.pop(key, default)] on a local mapping: the value and the
    mapping that is left. *)
Definition dict_pop_default (d : pydict) (key : string) (default : pyval)
  : pyval * pydict :=
  match dict_get d key with
  | Some v => (v, dict_remove d key)
  | None => (default, d)
  end.

Definition is_none (v : pyval) : bool :=
  match v with VNone => true | _ => false end.

(** [set(argspec) - set(config_with_defaults.keys())], in the order of the
    signature (only membership is observed afterwards). *)
Definition missing (argspec : list string) (config_with_defaults : pydict)
  : list string :=
  filter (fun a => negb (dict_contains config_with_defaults a)) argspec.

(** [{a: runtime_environment[a] for a in missing_args if a in runtime_environment}] *)
Fixpoint available (missing_args : list string) (runtime_environment : pydict)
  : pydict :=
  match missing_args with
  | [] => []
  | a :: rest =>
      match dict_get runtime_environment a with
      | Some v => dict_set (available rest runtime_environment) a v
      | None => available rest runtime_environment
      end
  end.

Definition mem (a : string) (l : list string) : bool :=
  existsb (String.eqb a) l.

(** Lines 29 to 41: the module name comes out of the private copy of
    [config], or else out of [config_defaults]; in either case it is
    popped from [config_defaults]. The result is the name and what is left
    of the copy. *)
Definition take_module_name (config : pydict) (config_defaults : loc)
  : M (pyval * pydict) :=
  let (module_name, config) := dict_pop_default config "module_name" VNone in
  module_name <~
    (if is_none module_name
     then pop config_defaults "module_name"
     else _ <~ pop_default config_defaults "module_name" VNone ;;
          ret module_name) ;;
  ret (module_name, config).

(** Lines 45 to 61: the same for the class name, with a warning before the
    defaults are tried. *)
Definition take_class_name (config : pydict) (config_defaults : loc)
  : M (pyval * pydict) :=
  let (class_name, config) := dict_pop_default config "class_name" VNone in
  class_name <~
    (if is_none class_name
     then _ <~ emit (EvWarning (dict_get config "name")) ;;
          pop config_defaults "class_name"
     else _ <~ pop_default config_defaults "class_name" VNone ;;
          ret class_name) ;;
  ret (class_name, config).

(** Lines 70 to 82: what a given runtime environment adds to the merged
    keyword arguments of a class. *)
Definition with_runtime_environment (class_ : pyclass)
           (config_with_defaults runtime_environment : pydict) : pydict :=
  let argspec := tl (getfullargspec_args class_) in
  let missing_args := missing argspec config_with_defaults in
  let config_with_defaults :=
    dict_update config_with_defaults
      (available missing_args runtime_environment) in
  if mem "runtime_environment" missing_args
  then dict_set config_with_defaults "runtime_environment"
         (VDict runtime_environment)
  else config_with_defaults.

Section Instantiator.

(** The class loader, an external collaborator. *)
Variable verify_dynamic_loading_support : pyval -> option exn.
Variable load_class : pyval -> pyval -> outcome pyclass.

(** Lines 63 to 94: load the class, merge the depleted defaults with what
    is left of the copy of [config], add what the runtime environment
    offers, and call the class. A [TypeError] of the call is raised again
    as a [TypeError] with a longer message. *)
Definition build_instance (class_name module_name : pyval) (config : pydict)
           (runtime_environment : option loc) (config_defaults : loc)
  : M pyval :=
  _ <~ emit (EvLoadClass class_name module_name) ;;
  class_ <~ lift (load_class class_name module_name) ;;
  (* config_with_defaults = copy.deepcopy(config_defaults) *)
  config_with_defaults <~ load config_defaults ;;
  let config_with_defaults := dict_update config_with_defaults config in
  config_with_defaults <~
    match runtime_environment with
    | Some r =>
        runtime_environment <~ load r ;;
        ret (with_runtime_environment class_ config_with_defaults
               runtime_environment)
    | None => ret config_with_defaults
    end ;;
  _ <~ emit (EvConstruct config_with_defaults) ;;
  match construct class_ config_with_defaults with
  | Raises TypeError => raise TypeError
  | r => lift r
  end.

Definition instantiate_class_from_config
           (config : loc) (runtime_environment : option loc)
           (config_defaults : option loc) : M pyval :=
  config_defaults <~
    match config_defaults with
    | None => alloc []
    | Some l => ret l
    end ;;
  (* config = copy.deepcopy(config) *)
  config <~ load config ;;
  taken <~ take_module_name config config_defaults ;;
  let (module_name, config) := taken : pyval * pydict in
  _ <~ emit (EvVerify module_name) ;;
  _ <~ match verify_dynamic_loading_support module_name with
       | Some e => raise e
       | None => ret tt
       end ;;
  taken <~ take_class_name config config_defaults ;;
  let (class_name, config) := taken : pyval * pydict in
  build_instance class_name module_name config runtime_environment
    config_defaults.

End Instantiator.

(** A class for the examples: its constructor takes [conn], [name] and
    [runtime_environment], and an instance shows the keyword arguments it
    was built from. A loader that knows this class as [Foo] of [pkg.mod],
    and a module check that passes. *)
Definition Foo : pyclass :=
  mkClass ["self"; "conn"; "name"; "runtime_environment"]
          (fun kwargs => Returns (VDict kwargs)).

Definition example_load_class (class_name module_name : pyval)
  : outcome pyclass :=
  match class_name, module_name with
  | VStr c, VStr m =>
      if String.eqb c "Foo" && String.eqb m "pkg.mod"
      then Returns Foo else Raises (OtherError "ClassNotFoundError")
  | _, _ => Raises TypeError
  end.

Definition example_verify (module_name : pyval) : option exn := None.

(* ================================================================== *)
(** ** [format_dict_for_error_message] *)

Definition tab : ascii := ascii_of_nat 9.

(** [sep.join(parts)] *)
Fixpoint str_join (sep : string) (parts : list string) : string :=
  match parts with
  | [] => EmptyString
  | [x] => x
  | x :: rest => x ++ sep ++ str_join sep rest
  end.

(** One entry of the dump: the key, two tabs, the text of the value. *)
Definition format_entry (str_ : pyval -> string) (key : string) (v : pyval)
  : string :=
  str_join (String tab (String tab EmptyString)) [key; str_ v].

(** The dump iterates over the keys and looks each one up again with
    [dict_[key]]. [str_] stands for [str] on values; [str] of a key, a
    string, is the key. *)
Definition format_dict_for_error_message (str_ : pyval -> string)
           (dict_ : pydict) : outcome string :=
  entries <-
    comprehension
      (fun key =>
         match dict_get dict_ key with
         | Some v => Returns (format_entry str_ key v)
         | None => Raises KeyError
         end)
      (dict_keys dict_) ;;
  Returns (str_join (String newline (String tab EmptyString)) entries).

(* ================================================================== *)
(** ** [file_relative_path] *)

(** [os.path] with the separator of POSIX. *)
Definition sep : ascii := "/"%char.

Fixpoint has_sep (p : string) : bool :=
  match p with
  | EmptyString => false
  | String c p' => Ascii.eqb c sep || has_sep p'
  end.

(** [p[:p.rfind(sep) + 1]]: the text up to and including the last
    separator, empty when there is none. *)
Fixpoint head_to_last_sep (p : string) : string :=
  match p with
  | EmptyString => EmptyString
  | String c p' =>
      if Ascii.eqb c sep || has_sep p'
      then String c (head_to_last_sep p') else EmptyString
  end.

(** [head == sep * len(head)] *)
Fixpoint all_sep (head : string) : bool :=
  match head with
  | EmptyString => true
  | String c head' => Ascii.eqb c sep && all_sep head'
  end.

(** [head.rstrip(sep)] *)
Fixpoint rstrip_sep (head : string) : string :=
  match head with
  | EmptyString => EmptyString
  | String c head' =>
      match rstrip_sep head' with
      | EmptyString => if Ascii.eqb c sep then EmptyString else String c EmptyString
      | r => String c r
      end
  end.

Definition is_empty (s : string) : bool :=
  match s with EmptyString => true | _ => false end.

(** [os.path.dirname] *)
Definition dirname (p : string) : string :=
  let head := head_to_last_sep p in
  if negb (is_empty head) && negb (all_sep head)
  then rstrip_sep head else head.

Definition startswith_sep (b : string) : bool :=
  match b with
  | String c _ => Ascii.eqb c sep
  | EmptyString => false
  end.

Fixpoint endswith_sep (path : string) : bool :=
  match path with
  | EmptyString => false
  | String c EmptyString => Ascii.eqb c sep
  | String _ path' => endswith_sep path'
  end.

(** [os.path.join(path, b)] *)
Definition path_join (path b : string) : string :=
  if startswith_sep b then b
  else if is_empty path || endswith_sep path then path ++ b
  else path ++ String sep b.

Definition file_relative_path (dunderfile relative_path : string) : string :=
  path_join (dirname dunderfile) relative_path.

(* ================================================================== *)
(** ** Specification vocabulary *)

(** Candidates in left-to-right order without overlap: each one ends
    before the next one starts. *)
Definition left_to_right (cs : list candidate) : Prop :=
  StronglySorted (fun a b => end_ a <= start b) cs.

(** A candidate that denotes a real occurrence of the pattern in [s], read
    from offset [pos] on: its span lies in the string, the pattern matches
    exactly that span, and its texts are those of the span. *)
Definition located_from (pos : nat) (s : string) (c : candidate) : Prop :=
  pos <= start c
  /\ start c < end_ c
  /\ end_ c <= pos + String.length s
  /\ match_at (slice_from (start c - pos) s) = Some (end_ c - start c)
  /\ match_ c = slice_to (end_ c - start c) (slice_from (start c - pos) s)
  /\ clean_match c = clean (match_ c).

(** The name a mapping supplies under a key: the value stored there,
    unless that value is [None] (the source pops with default [None] and
    then tests [is None], so a key bound to [None] counts as absent). *)
Definition supplied (d : pydict) (key : string) : option pyval :=
  match dict_get d key with
  | Some v => if is_none v then None else Some v
  | None => None
  end.

(** Where a name comes from: [config] first, [config_defaults] otherwise. *)
Definition name_from (config config_defaults : pydict) (key : string)
  : option pyval :=
  match supplied config key with
  | Some v => Some v
  | None => dict_get config_defaults key
  end.

(** The store after an object has been replaced. *)
Definition with_object (w : world) (l : loc) (d : pydict) : world :=
  mkWorld (heap_set (heap w) l d) (log w).

(** The log after more events. *)
Definition with_events (w : world) (evs : list event) : world :=
  mkWorld (heap w) (log w ++ evs)%list.

(** No dollar sign anywhere in the text. *)
Fixpoint dollar_free (s : string) : bool :=
  match s with
  | EmptyString => true
  | String c s' => negb (Ascii.eqb c "$") && dollar_free s'
  end.

(** Only characters that may go on a bare name. *)
Fixpoint all_ident (s : string) : bool :=
  match s with
  | EmptyString => true
  | String c s' => is_ident_char c && all_ident s'
  end.

(** None of the three characters that [clean] removes. *)
Fixpoint clean_text (s : string) : bool :=
  match s with
  | EmptyString => true
  | String c s' =>
      negb (Ascii.eqb c "$" || Ascii.eqb c "{" || Ascii.eqb c "}")
      && clean_text s'
  end.

(** Configuration data without placeholders: nested mappings and lists
    whose leaves are [None] or strings without a dollar sign. *)
Fixpoint plain (data : pyval) : bool :=
  match data with
  | VNone => true
  | VStr s => dollar_free s
  | VList elems => forallb plain elems
  | VDict items => forallb (fun kv => plain (snd kv)) items
  | _ => false
  end.

(** The warning of the class-name step: none when [config] supplies the
    class name, otherwise one that shows the [name] entry of [config]. *)
Definition class_name_warning (config : pydict) : list event :=
  match supplied config "class_name" with
  | Some _ => []
  | None => [EvWarning (dict_get config "name")]
  end.

(** Induction on values that reaches the elements of lists and the values
    of mappings. *)
Section PyvalInduction.

Variable P : pyval -> Prop.
Hypothesis HNone : P VNone.
Hypothesis HBool : forall b, P (VBool b).
Hypothesis HInt : forall z, P (VInt z).
Hypothesis HStr : forall s, P (VStr s).
Hypothesis HList : forall elems, Forall P elems -> P (VList elems).
Hypothesis HDict :
  forall items, Forall (fun kv => P (snd kv)) items -> P (VDict items).

Fixpoint pyval_nested_ind (v : pyval) : P v :=
  match v with
  | VNone => HNone
  | VBool b => HBool b
  | VInt z => HInt z
  | VStr s => HStr s
  | VList elems =>
      HList elems
        ((fix each (l : list pyval) : Forall P l :=
            match l with
            | [] => Forall_nil P
            | x :: l' => Forall_cons x (pyval_nested_ind x) (each l')
            end) elems)
  | VDict items =>
      HDict items
        ((fix each (l : list (string * pyval))
            : Forall (fun kv => P (snd kv)) l :=
            match l with
            | [] => Forall_nil _
            | kv :: l' =>
                Forall_cons kv
                  (match kv as kv0 return P (snd kv0) with
                   | (_, x) => pyval_nested_ind x
                   end)
                  (each l')
            end) items)
  end.

End PyvalInduction.

(** No closing brace and no newline: the texts a brace form can enclose. *)
Fixpoint brace_free (name : string) : bool :=
  match name with
  | EmptyString => true
  | String c name' =>
      negb (Ascii.eqb c "}") && negb (Ascii.eqb c newline) && brace_free name'
  end.

(* ================================================================== *)
(** * Properties *)

(** ** Slicing *)

Lemma slice_to_length (n : nat) (s : string) :
  String.length (slice_to n s) = Nat.min n (String.length s).
Proof.
  revert s; induction n as [|n IH]; intros [|c s]; simpl; auto.
Qed.

Lemma slice_split (n : nat) (s : string) :
  slice_to n s ++ slice_from n s = s.
Proof.
  revert s; induction n as [|n IH]; intros [|c s]; simpl; auto.
  now rewrite IH.
Qed.

Lemma slice_to_all (n : nat) (s : string) :
  String.length s <= n -> slice_to n s = s.
Proof.
  revert s; induction n as [|n IH]; intros [|c s]; simpl; intros H;
    try reflexivity; try lia.
  f_equal; apply IH; lia.
Qed.

Lemma slice_from_all (n : nat) (s : string) :
  String.length s <= n -> slice_from n s = EmptyString.
Proof.
  revert s; induction n as [|n IH]; intros [|c s]; simpl; intros H;
    try reflexivity; try lia.
  apply IH; lia.
Qed.

Lemma append_empty_r (s : string) : s ++ EmptyString = s.
Proof. induction s as [|c s IH]; simpl; [reflexivity | now rewrite IH]. Qed.

Lemma append_length (s t : string) :
  String.length (s ++ t) = String.length s + String.length t.
Proof. induction s as [|c s IH]; simpl; [reflexivity | now rewrite IH]. Qed.

(** ** The pattern *)

Lemma brace_body_lt (s : string) (n : nat) :
  brace_body s = Some n -> n < String.length s.
Proof.
  revert n; induction s as [|c s IH]; simpl; intros n H; [discriminate|].
  destruct (Ascii.eqb c "}"); [injection H as <-; lia|].
  destruct (Ascii.eqb c newline); [discriminate|].
  destruct (brace_body s) as [m|]; simpl in H; [|discriminate].
  injection H as <-. specialize (IH m eq_refl). lia.
Qed.

Lemma ident_tail_le (s : string) : ident_tail s <= String.length s.
Proof.
  induction s as [|c s IH]; simpl; [lia|].
  destruct (is_ident_char c); lia.
Qed.

Lemma digit_not_ident_start (d : ascii) :
  is_digit d = true -> is_ident_start d = false /\ Ascii.eqb d "{" = false.
Proof.
  unfold is_digit, is_ident_start, in_range.
  destruct (Ascii.eqb_spec d "_") as [->|_]; [discriminate|].
  destruct (Ascii.eqb_spec d "{") as [->|_]; [discriminate|].
  intros H. apply andb_true_iff in H as [H1 H2].
  apply Nat.leb_le in H1, H2. split; [|reflexivity].
  assert (H3 : Nat.leb 97 (nat_of_ascii d) = false)
    by (apply Nat.leb_gt; lia).
  assert (H4 : Nat.leb 65 (nat_of_ascii d) = false)
    by (apply Nat.leb_gt; lia).
  rewrite H3, H4. reflexivity.
Qed.

(** A match starts with a dollar followed by an opening brace or by the
    first character of a name, and lies within the string. *)
Lemma match_at_shape (s : string) (len : nat) :
  match_at s = Some len ->
  exists d r, s = String "$" (String d r)
              /\ (d = "{"%char \/ is_ident_start d = true)
              /\ 2 <= len <= String.length s.
Proof.
  unfold match_at. destruct s as [|a [|d r]]; try discriminate.
  - destruct a as [[] [] [] [] [] [] [] []]; discriminate.
  - destruct (Ascii.eqb_spec a "$") as [->|Ha].
    + destruct (Ascii.eqb_spec d "{") as [->|Hd].
      * destruct (brace_body r) as [n|] eqn:E; simpl; [|discriminate].
        intros H; injection H as <-. apply brace_body_lt in E.
        exists "{"%char, r. simpl. repeat split; auto; lia.
      * destruct (is_ident_start d) eqn:E; [|discriminate].
        intros H; injection H as <-. pose proof (ident_tail_le r).
        exists d, r. simpl. repeat split; auto; lia.
    + intros H. exfalso.
      destruct a as [[] [] [] [] [] [] [] []]; try discriminate;
        now apply Ha.
Qed.

(** ** The finder *)

Lemma finditer_located (s : string) :
  forall pos skip c,
    In c (finditer s pos skip) ->
    pos + skip <= start c /\ located_from pos s c.
Proof.
  induction s as [|a s IH]; intros pos skip c Hin; [destruct Hin|].
  assert (Hshift : forall k c', In c' (finditer s (S pos) k) ->
            pos + S k <= start c' /\ located_from pos (String a s) c').
  { intros k c' H. apply IH in H as (Hlo & Hp & Hlt & Hhi & Hm & Ht & Hc).
    split; [lia|]. unfold located_from.
    replace (start c' - pos) with (S (start c' - S pos)) by lia.
    simpl. repeat split; auto; lia. }
  cbn [finditer] in Hin. destruct skip as [|k].
  - destruct (match_at (String a s)) as [len|] eqn:E.
    + destruct Hin as [<-|Hin].
      * apply match_at_shape in E as Hs. destruct Hs as (d & r & _ & _ & Hlen).
        simpl in Hlen. unfold located_from; simpl.
        replace (pos - pos) with 0 by lia.
        replace (pos + len - pos) with len by lia.
        simpl. repeat split; auto; lia.
      * apply Hshift in Hin as [Hlo Hloc]. split; [lia | exact Hloc].
    + apply Hshift in Hin as [Hlo Hloc]. split; [lia | exact Hloc].
  - apply Hshift in Hin. exact Hin.
Qed.

Lemma scan_located (s : string) (c : candidate) :
  In c (scan s) -> located_from 0 s c.
Proof. intros H. now apply finditer_located in H. Qed.

Lemma finditer_sorted (s : string) :
  forall pos skip, left_to_right (finditer s pos skip).
Proof.
  unfold left_to_right.
  induction s as [|a s IH]; intros pos skip; cbn [finditer]; [constructor|].
  destruct skip as [|k]; [|apply IH].
  destruct (match_at (String a s)) as [len|] eqn:E; [|apply IH].
  constructor; [apply IH|].
  apply match_at_shape in E as (d & r & _ & _ & Hlen).
  apply Forall_forall. intros c Hin.
  apply finditer_located in Hin as [Hlo _]. simpl. lia.
Qed.

Lemma brace_body_closed (name rest : string) :
  brace_free name = true ->
  brace_body (name ++ String "}" rest) = Some (String.length name).
Proof.
  induction name as [|c name IH]; simpl; intros H; [reflexivity|].
  apply andb_true_iff in H as [H H3]. apply andb_true_iff in H as [H1 H2].
  apply negb_true_iff in H1, H2. rewrite H1, H2, (IH H3). reflexivity.
Qed.

Lemma slice_to_append (s t : string) :
  slice_to (String.length s) (s ++ t) = s.
Proof. induction s as [|c s IH]; simpl; [now destruct t | now rewrite IH]. Qed.

Lemma slice_from_append (s t : string) :
  slice_from (String.length s) (s ++ t) = t.
Proof. induction s as [|c s IH]; simpl; [now destruct t | exact IH]. Qed.

Lemma clean_append (s t : string) : clean (s ++ t) = clean s ++ clean t.
Proof.
  induction s as [|c s IH]; simpl; [reflexivity|].
  destruct (Ascii.eqb c "$" || Ascii.eqb c "{" || Ascii.eqb c "}")%bool;
    simpl; now rewrite IH.
Qed.

(** The first candidate of a template that opens with a brace form. *)
Lemma scan_brace_head (name rest : string) :
  brace_free name = true ->
  hd_error (scan ("${" ++ name ++ String "}" rest))
  = Some (mkCandidate ("${" ++ name ++ "}") (clean name) 0
            (String.length name + 3)).
Proof.
  intros H. unfold scan. cbn [append finditer match_at].
  change (Ascii.eqb "{" "{") with true. cbv iota.
  rewrite (brace_body_closed name rest H). cbn [option_map hd_error].
  do 2 f_equal.
  - replace (String.length name + 3) with (S (S (String.length name + 1))) by lia.
    cbn [slice_to]. do 2 f_equal.
    replace (name ++ String "}" rest) with ((name ++ "}") ++ rest).
    + rewrite <- (slice_to_append (name ++ "}") rest) at 2.
      f_equal. rewrite append_length. reflexivity.
    + clear. induction name as [|c n IH]; simpl; [reflexivity | now rewrite IH].
  - replace (String.length name + 3) with (S (S (String.length name + 1))) by lia.
    cbn [slice_to]. 
    replace (name ++ String "}" rest) with ((name ++ "}") ++ rest).
    + replace (String.length name + 1) with (String.length (name ++ "}"))
        by (rewrite append_length; reflexivity).
      rewrite slice_to_append.
      change (clean (String "$" (String "{" (name ++ "}"))))
        with (clean (name ++ "}")).
      rewrite clean_append. simpl. apply append_empty_r.
    + clear. induction name as [|c n IH]; simpl; [reflexivity | now rewrite IH].
Qed.

(** C9. Placeholder detection. A bare dollar followed by a digit is not a
    candidate: ["$1abc"] has none, no candidate of any template starts at
    a dollar that a digit follows, and scanning goes on after such a
    dollar as if from the digit. The brace form does not validate the name:
    ["${1abc}"] has exactly one candidate, with clean name ["1abc"], and
    any text free of closing braces and newlines is accepted between the
    braces. The candidates of every template come left to right without
    overlap, and the empty string has none. *)
Theorem find_substitution_candidates_detection :
  find_substitution_candidates (VStr "$1abc") = Returns []
  /\ find_substitution_candidates (VStr "${1abc}")
     = Returns [mkCandidate "${1abc}" "1abc" 0 7]
  /\ find_substitution_candidates (VStr "") = Returns []
  /\ (forall s c, In c (scan s) ->
        exists d r, slice_from (start c) s = String "$" (String d r)
                    /\ is_digit d = false)
  /\ (forall d r, is_digit d = true ->
        scan (String "$" (String d r)) = finditer (String d r) 1 0)
  /\ (forall name rest, brace_free name = true ->
        hd_error (scan ("${" ++ name ++ String "}" rest))
        = Some (mkCandidate ("${" ++ name ++ "}") (clean name) 0
                  (String.length name + 3)))
  /\ (forall s, left_to_right (scan s)).
Proof.
  repeat split; try reflexivity.
  - intros s c Hin. apply scan_located in Hin as (_ & _ & _ & Hm & _).
    rewrite Nat.sub_0_r in Hm.
    apply match_at_shape in Hm as (d & r & Hs & Hd & _).
    exists d, r. split; [exact Hs|].
    destruct (is_digit d) eqn:E; [|reflexivity].
    apply digit_not_ident_start in E as [E1 E2].
    destruct Hd as [->|Hd]; [discriminate | congruence].
  - intros d r Hd. apply digit_not_ident_start in Hd as [E1 E2].
    unfold scan. cbn [finditer match_at].
    change (Ascii.eqb "$" "$") with true.
    now rewrite E1, E2.
  - intros name rest H. now apply scan_brace_head.
  - intros s. apply finditer_sorted.
Qed.

Lemma find_substitution_candidates_detection_witness :
  In (mkCandidate "$x" "x" 1 3) (scan "a$x$1")
  /\ (exists d r, slice_from 1 "a$x$1" = String "$" (String d r)
                  /\ is_digit d = false)
  /\ scan "$1abc" = finditer "1abc" 1 0
  /\ hd_error (scan "${1abc}")
     = Some (mkCandidate "${1abc}" "1abc" 0 7).
Proof.
  destruct find_substitution_candidates_detection
    as (_ & _ & _ & Hstart & Hdigit & Hbrace & _).
  split; [left; reflexivity|].
  split; [apply (Hstart "a$x$1" (mkCandidate "$x" "x" 1 3)); left; reflexivity|].
  split; [apply (Hdigit "1"%char "abc"); reflexivity|].
  apply (Hbrace "1abc" ""); reflexivity.
Defined.

(** ** The substitution engine *)

Lemma while_candidates_nil env fuel s store :
  while_candidates env fuel s [] store = Returns (VStr s).
Proof. destruct fuel; reflexivity. Qed.

Lemma substitute_single env fuel s store c :
  scan s = [c] ->
  substitute_config_variable env fuel (VStr s) store
  = single_candidate env fuel s c store.
Proof. intros H. unfold substitute_config_variable. simpl. now rewrite H. Qed.

Lemma substitute_many env fuel s store c c' cs :
  scan s = c :: c' :: cs ->
  substitute_config_variable env fuel (VStr s) store
  = while_candidates env fuel s (c :: c' :: cs) store.
Proof. intros H. unfold substitute_config_variable. simpl. now rewrite H. Qed.

(** An environment variable that is unset or set to the empty string is
    passed over. *)
Lemma single_candidate_falls_through env fuel s c store :
  truthy (os_getenv env (clean_match c)) = false ->
  single_candidate env fuel s c store
  = match dict_get store (clean_match c) with
    | Some (VStr value) => Returns (VStr (splice s c value))
    | Some value =>
        if String.eqb (match_ c) s then Returns value else Raises Exception_
    | None => Raises (MissingConfigVariableError (clean_match c))
    end.
Proof.
  intros H. unfold single_candidate.
  destruct (os_getenv env (clean_match c)) as [[|a e]|]; try discriminate;
    destruct (dict_get store (clean_match c)) as [[]|];
    try reflexivity; apply while_candidates_nil.
Qed.

Lemma slice_from_length (n : nat) (s : string) :
  String.length (slice_from n s) = String.length s - n.
Proof.
  revert s; induction n as [|n IH]; intros [|c s]; simpl; auto.
Qed.

(** The matched text is the whole template exactly when the span is the
    whole template. *)
Lemma match_is_template (s : string) (c : candidate) :
  located_from 0 s c ->
  match_ c = s <-> start c = 0 /\ end_ c = String.length s.
Proof.
  intros (_ & Hlt & Hhi & _ & Ht & _). rewrite Nat.sub_0_r in Ht. split.
  - intros E. rewrite E in Ht. apply (f_equal String.length) in Ht.
    rewrite slice_to_length, slice_from_length in Ht. lia.
  - intros [E0 E1]. rewrite Ht, E0, E1, Nat.sub_0_r.
    destruct s; reflexivity || (simpl; f_equal; apply slice_to_all; lia).
Qed.

(** C1 (as the code has it). A template with exactly one candidate that
    the environment does not resolve and whose stored value is a string
    gets that value spliced in once, and nothing more: the single-candidate
    branch does not scan the result again, so placeholders inside the
    stored value stay as they are. With the store [A -> "${B}"],
    [B -> "final"] and an empty environment, ["${A}"] becomes ["${B}"]. *)
Theorem single_candidate_splices_once :
  forall env fuel s store c value,
    scan s = [c] ->
    truthy (os_getenv env (clean_match c)) = false ->
    dict_get store (clean_match c) = Some (VStr value) ->
    substitute_config_variable env fuel (VStr s) store
    = Returns (VStr (splice s c value)).
Proof.
  intros env fuel s store c value Hs He Hv.
  rewrite (substitute_single env fuel s store c Hs).
  rewrite (single_candidate_falls_through env fuel s c store He), Hv.
  reflexivity.
Qed.

Lemma single_candidate_splices_once_witness :
  substitute_config_variable [] 0 (VStr "${A}")
    [("A", VStr "${B}"); ("B", VStr "final")]
  = Returns (VStr "${B}").
Proof.
  exact (single_candidate_splices_once [] 0 "${A}"
           [("A", VStr "${B}"); ("B", VStr "final")]
           (mkCandidate "${A}" "A" 0 4) "${B}" eq_refl eq_refl eq_refl).
Defined.

(** C1 as stated fails: whatever the fuel, ["${A}"] is not expanded to
    ["final"]. *)
Lemma recursive_expansion_single_counterexample :
  ~ (exists fuel,
        substitute_config_variable [] fuel (VStr "${A}")
          [("A", VStr "${B}"); ("B", VStr "final")]
        = Returns (VStr "final")).
Proof. intros [fuel H]. destruct fuel; discriminate H. Qed.

(** C2 (failing input). With [A] set to ["x"] in the environment and [B]
    stored as ["y"], the template ["${A}${B}"] has two candidates. The
    environment splice shortens the string and is not followed by a new
    scan, so [B] is spliced at its old span 4..8 of the new string
    ["x${B}"]: the result is ["x${By"], not ["xy"]. *)
Theorem stale_offsets_after_environment_splice :
  forall fuel,
    scan "${A}${B}"
    = [mkCandidate "${A}" "A" 0 4; mkCandidate "${B}" "B" 4 8]
    /\ substitute_config_variable [("A", "x")] (S (S fuel)) (VStr "${A}${B}")
         [("B", VStr "y")]
       = Returns (VStr "x${By")
    /\ scan "x${B}" = [mkCandidate "${B}" "B" 1 5].
Proof. intros fuel. repeat split. destruct fuel; reflexivity. Qed.

(** C3. One placeholder, not resolved by the environment, stored with a
    value that is not a string: the stored value is returned as it is
    exactly when the matched text is the whole template, that is when the
    span leaves no character before or after it; otherwise the call raises
    the plain exception of unsupported substitutions. *)
Theorem non_string_value_needs_whole_template :
  forall env fuel s store c value,
    scan s = [c] ->
    truthy (os_getenv env (clean_match c)) = false ->
    dict_get store (clean_match c) = Some value ->
    isinstance_str value = false ->
    (substitute_config_variable env fuel (VStr s) store = Returns value
     <-> match_ c = s)
    /\ (match_ c = s <-> start c = 0 /\ end_ c = String.length s)
    /\ (match_ c <> s ->
        substitute_config_variable env fuel (VStr s) store
        = Raises Exception_).
Proof.
  intros env fuel s store c value Hs He Hv Hn.
  rewrite (substitute_single env fuel s store c Hs).
  rewrite (single_candidate_falls_through env fuel s c store He), Hv.
  assert (Hloc : located_from 0 s c)
    by (apply scan_located; rewrite Hs; left; reflexivity).
  destruct (String.eqb_spec (match_ c) s) as [E|E];
    destruct value; try discriminate Hn;
    (split; [split; [intros H; try discriminate H; assumption | intros H; try contradiction; reflexivity]
            |split; [now apply match_is_template | intros H; try contradiction; reflexivity]]).
Qed.

Lemma non_string_value_needs_whole_template_witness :
  (substitute_config_variable [] 0 (VStr "${PORT}") [("PORT", VInt 5432)]
   = Returns (VInt 5432) <-> "${PORT}" = "${PORT}")
  /\ ("${NAME}" <> "prefix-${NAME}-suffix" ->
      substitute_config_variable [("NAME", "")] 0
        (VStr "prefix-${NAME}-suffix") [("NAME", VList [])]
      = Raises Exception_).
Proof.
  split.
  - exact (proj1 (non_string_value_needs_whole_template [] 0 "${PORT}"
             [("PORT", VInt 5432)] (mkCandidate "${PORT}" "PORT" 0 7)
             (VInt 5432) eq_refl eq_refl eq_refl eq_refl)).
  - exact (proj2 (proj2 (non_string_value_needs_whole_template
             [("NAME", "")] 0 "prefix-${NAME}-suffix" [("NAME", VList [])]
             (mkCandidate "${NAME}" "NAME" 7 14) (VList [])
             eq_refl eq_refl eq_refl eq_refl))).
Defined.

(** One iteration of the loop, by the source of the value. *)
Lemma while_candidates_step env fuel s c queue store :
  while_candidates env (S fuel) s (c :: queue) store
  = match os_getenv env (clean_match c) with
    | Some (String a e) =>
        while_candidates env fuel (splice s c (String a e)) queue store
    | _ =>
        match dict_get store (clean_match c) with
        | Some (VStr value) =>
            while_candidates env fuel (splice s c value)
              (scan (splice s c value)) store
        | Some _ => Raises TypeError
        | None => Raises (MissingConfigVariableError (clean_match c))
        end
    end.
Proof. reflexivity. Qed.







(** The same after the stale splice of an environment value: the name the
    exception carries is then not even a name of the template. *)
Example unresolved_after_stale_splice :
  substitute_config_variable [("HOME", "/root")] 3 (VStr "${HOME}/$B/$U")
    [("B", VStr "b")]
  = Raises (MissingConfigVariableError "BbU").
Proof. reflexivity. Qed.

(** ** The traversal *)

Lemma comprehension_returns {A B : Type} (body : A -> outcome B) (l : list A)
      (r : list B) :
  comprehension body l = Returns r
  <-> Forall2 (fun a b => body a = Returns b) l r.
Proof.
  revert r; induction l as [|a l IH]; intros r; simpl.
  - split.
    + intros H; injection H as <-; constructor.
    + intros H; inversion H; reflexivity.
  - destruct (body a) as [b| |] eqn:Eb; simpl.
    + destruct (comprehension body l) as [rest| |] eqn:El; simpl.
      * split.
        -- intros H; injection H as <-. constructor; [exact Eb|].
           now apply IH.
        -- intros H; inversion H as [|? b' ? rest' Hb Hrest]; subst.
           apply IH in Hrest. congruence.
      * split; [discriminate|].
        intros H; inversion H as [|? b' ? rest' Hb Hrest]; subst.
        apply IH in Hrest. discriminate.
      * split; [discriminate|].
        intros H; inversion H as [|? b' ? rest' Hb Hrest]; subst.
        apply IH in Hrest. discriminate.
    + split; [discriminate|]. intros H; inversion H; congruence.
    + split; [discriminate|]. intros H; inversion H; congruence.
Qed.

Lemma Forall2_same_length {A B : Type} (R : A -> B -> Prop) l r :
  Forall2 R l r -> List.length l = List.length r.
Proof. induction 1; simpl; congruence. Qed.

(** The shape of the traversal. A mapping comes back as a mapping exactly
    when every value comes back, with the same keys in the same order and
    each value the result of the traversal on it; a list comes back as a
    list exactly when every element comes back, with the same length and
    each element the result of the traversal on it. The no-value sentinel
    and a string without placeholders are returned unchanged. *)
Theorem substitute_all_preserves_shape :
  forall env fuel vars,
    (forall items r,
        substitute_all_config_variables env fuel (VDict items) vars = Returns r
        <-> exists items',
            r = VDict items'
            /\ Forall2 (fun kv kv' =>
                          fst kv' = fst kv
                          /\ substitute_all_config_variables env fuel (snd kv) vars
                             = Returns (snd kv'))
                       items items')
    /\ (forall items items',
          substitute_all_config_variables env fuel (VDict items) vars
          = Returns (VDict items') ->
          dict_keys items' = dict_keys items)
    /\ (forall elems r,
          substitute_all_config_variables env fuel (VList elems) vars = Returns r
          <-> exists elems',
              r = VList elems'
              /\ Forall2 (fun v v' =>
                            substitute_all_config_variables env fuel v vars
                            = Returns v')
                         elems elems')
    /\ (forall elems elems',
          substitute_all_config_variables env fuel (VList elems) vars
          = Returns (VList elems') ->
          List.length elems' = List.length elems)
    /\ substitute_all_config_variables env fuel VNone vars = Returns VNone
    /\ (forall s, scan s = [] ->
          substitute_all_config_variables env fuel (VStr s) vars
          = Returns (VStr s)).
Proof.
  intros env fuel vars.
  assert (Hdict : forall items r,
        substitute_all_config_variables env fuel (VDict items) vars = Returns r
        <-> exists items',
            r = VDict items'
            /\ Forall2 (fun kv kv' =>
                          fst kv' = fst kv
                          /\ substitute_all_config_variables env fuel (snd kv) vars
                             = Returns (snd kv'))
                       items items').
  { intros items r. cbn [substitute_all_config_variables].
    match goal with
    | |- context [comprehension ?f items] => set (body := f)
    end.
    assert (Hbody : forall kv kv',
               body kv = Returns kv'
               <-> fst kv' = fst kv
                   /\ substitute_all_config_variables env fuel (snd kv) vars
                      = Returns (snd kv')).
    { intros [k v] [k' v']. unfold body. simpl.
      destruct (substitute_all_config_variables env fuel v vars); simpl;
        split; try discriminate; try (intros [_ H]; discriminate H).
      - intros H; injection H as <- <-. auto.
      - intros [<- H]. injection H as <-. reflexivity. }
    destruct (comprehension body items) as [items'| |] eqn:E; simpl.
    - apply comprehension_returns in E. split.
      + intros H; injection H as <-. exists items'. split; [reflexivity|].
        eapply Forall2_impl; [|exact E]. intros a b; apply Hbody.
      + intros (items'' & -> & H). do 2 f_equal.
        assert (E' : comprehension body items = Returns items'').
        { apply comprehension_returns.
          eapply Forall2_impl; [|exact H]. intros a b; apply Hbody. }
        apply comprehension_returns in E. congruence.
    - split; [discriminate|]. intros (items'' & -> & H). exfalso.
      assert (E' : comprehension body items = Returns items'').
      { apply comprehension_returns.
        eapply Forall2_impl; [|exact H]. intros a b; apply Hbody. }
      congruence.
    - split; [discriminate|]. intros (items'' & -> & H). exfalso.
      assert (E' : comprehension body items = Returns items'').
      { apply comprehension_returns.
        eapply Forall2_impl; [|exact H]. intros a b; apply Hbody. }
      congruence. }
  assert (Hlist : forall elems r,
          substitute_all_config_variables env fuel (VList elems) vars = Returns r
          <-> exists elems',
              r = VList elems'
              /\ Forall2 (fun v v' =>
                            substitute_all_config_variables env fuel v vars
                            = Returns v')
                         elems elems').
  { intros elems r. cbn [substitute_all_config_variables].
    match goal with
    | |- context [comprehension ?f elems] => set (body := f)
    end.
    destruct (comprehension body elems) as [elems'| |] eqn:E; simpl.
    - split.
      + intros H; injection H as <-. exists elems'. split; [reflexivity|].
        now apply comprehension_returns in E.
      + intros (elems'' & -> & H).
        assert (E' : comprehension body elems = Returns elems'')
          by (apply comprehension_returns; exact H).
        congruence.
    - split; [discriminate|]. intros (elems'' & -> & H).
      assert (E' : comprehension body elems = Returns elems'')
        by (apply comprehension_returns; exact H).
      congruence.
    - split; [discriminate|]. intros (elems'' & -> & H).
      assert (E' : comprehension body elems = Returns elems'')
        by (apply comprehension_returns; exact H).
      congruence. }
  split; [exact Hdict|]. split; [|split; [exact Hlist|split; [|split]]].
  - intros items items' H. apply Hdict in H as (items'' & E & H).
    injection E as <-. unfold dict_keys.
    induction H as [|kv kv' l l' [Hk _] _ IH]; simpl; [reflexivity|].
    now rewrite Hk, IH.
  - intros elems elems' H. apply Hlist in H as (elems'' & E & H).
    injection E as <-. symmetry. eapply Forall2_same_length; exact H.
  - reflexivity.
  - intros s Hs. cbn [substitute_all_config_variables].
    unfold substitute_config_variable. simpl. rewrite Hs.
    apply while_candidates_nil.
Qed.

Lemma substitute_all_preserves_shape_witness :
  dict_keys [("k", VList [VStr "x"; VDict [("k2", VStr "x")]])]
  = dict_keys [("k", VList [VStr "${A}"; VDict [("k2", VStr "${A}")]])]
  /\ substitute_all_config_variables [] 0 (VStr "plain") [("A", VStr "x")]
     = Returns (VStr "plain").
Proof.
  pose proof (substitute_all_preserves_shape [] 0 [("A", VStr "x")])
    as (_ & Hkeys & _ & _ & _ & Hleaf).
  split.
  - apply Hkeys. reflexivity.
  - apply Hleaf. reflexivity.
Defined.

(** C8 (failing input). A leaf that is an integer or a boolean is not
    returned unchanged: only [None] is let through before the finder is
    called, and the finder raises [TypeError] on a value that is not a
    string. So the traversal of the integer 5 raises [TypeError], and so
    does the traversal of a mapping or of a list that holds such a leaf
    behind leaves that return, whatever the environment, the variable
    store and the fuel. *)
Theorem non_string_leaf_raises_type_error :
  forall env fuel vars,
    substitute_all_config_variables env fuel (VInt 5) vars = Raises TypeError
    /\ (forall z,
          substitute_all_config_variables env fuel (VInt z) vars
          = Raises TypeError)
    /\ (forall b,
          substitute_all_config_variables env fuel (VBool b) vars
          = Raises TypeError)
    /\ substitute_all_config_variables env fuel
         (VDict [("host", VNone); ("port", VInt 5432)]) vars
       = Raises TypeError
    /\ substitute_all_config_variables env fuel
         (VList [VNone; VBool true]) vars
       = Raises TypeError.
Proof. intros env fuel vars. repeat split. Qed.

(** ** Mappings and the store *)

Lemma dict_get_remove_same {V : Type} (d : list (string * V)) (k : string) :
  dict_get (dict_remove d k) k = None.
Proof.
  induction d as [|[k' v] d IH]; simpl; [reflexivity|].
  destruct (String.eqb k' k) eqn:E; [exact IH|]. simpl. now rewrite E.
Qed.

Lemma dict_get_remove_other {V : Type} (d : list (string * V)) (k k' : string) :
  k' <> k -> dict_get (dict_remove d k) k' = dict_get d k'.
Proof.
  intros Hne. induction d as [|[k0 v] d IH]; simpl; [reflexivity|].
  destruct (String.eqb_spec k0 k) as [->|E].
  - rewrite IH. destruct (String.eqb_spec k k') as [->|_];
      [contradiction | reflexivity].
  - simpl. now rewrite IH.
Qed.

Lemma dict_remove_absent {V : Type} (d : list (string * V)) (k : string) :
  dict_get d k = None -> dict_remove d k = d.
Proof.
  induction d as [|[k' v] d IH]; simpl; [reflexivity|].
  destruct (String.eqb k' k); [discriminate|]. intros H. now rewrite IH.
Qed.

Lemma dict_get_set_same {V : Type} (d : list (string * V)) (k : string) (v : V) :
  dict_get (dict_set d k v) k = Some v.
Proof.
  induction d as [|[k' v'] d IH]; simpl.
  - now rewrite String.eqb_refl.
  - destruct (String.eqb k' k) eqn:E; simpl; now rewrite E.
Qed.

Lemma dict_get_set_other {V : Type} (d : list (string * V)) (k k' : string) (v : V) :
  k' <> k -> dict_get (dict_set d k v) k' = dict_get d k'.
Proof.
  intros Hne. induction d as [|[k0 v0] d IH]; simpl.
  - destruct (String.eqb_spec k k') as [->|_]; [contradiction | reflexivity].
  - destruct (String.eqb_spec k0 k) as [->|E]; simpl.
    + destruct (String.eqb_spec k k') as [->|_]; [contradiction | reflexivity].
    + now rewrite IH.
Qed.

(** [d.update(other)]: the entries of [other] win. *)
Lemma dict_get_update {V : Type} (other d : list (string * V)) (k : string) :
  NoDup (dict_keys other) ->
  dict_get (dict_update d other) k
  = match dict_get other k with
    | Some v => Some v
    | None => dict_get d k
    end.
Proof.
  unfold dict_update. revert d.
  induction other as [|[k0 v0] other IH]; intros d Hnd; simpl; [reflexivity|].
  inversion Hnd as [|? ? Hnotin Hnd']; subst.
  rewrite (IH _ Hnd').
  destruct (String.eqb_spec k0 k) as [->|E].
  - assert (Hnone : dict_get other k = None).
    { clear -Hnotin. induction other as [|[k1 v1] other IH]; simpl;
        [reflexivity|].
      destruct (String.eqb_spec k1 k) as [->|_].
      - exfalso; apply Hnotin; left; reflexivity.
      - apply IH. intros H; apply Hnotin; right; exact H. }
    rewrite Hnone. apply dict_get_set_same.
  - destruct (dict_get other k); [reflexivity|].
    apply dict_get_set_other. congruence.
Qed.

Lemma heap_set_length (h : list pydict) (l : loc) (d : pydict) :
  List.length (heap_set h l d) = List.length h.
Proof.
  revert l; induction h as [|d' h IH]; intros [|l]; simpl; auto.
Qed.

Lemma heap_set_same (h : list pydict) (l : loc) (d d0 : pydict) :
  nth_error h l = Some d0 -> nth_error (heap_set h l d) l = Some d.
Proof.
  revert l; induction h as [|d' h IH]; intros [|l]; simpl; intros H;
    try discriminate; [reflexivity | now apply IH].
Qed.

Lemma heap_set_other (h : list pydict) (l l' : loc) (d : pydict) :
  l' <> l -> nth_error (heap_set h l d) l' = nth_error h l'.
Proof.
  revert l l'; induction h as [|d' h IH]; intros [|l] [|l'] Hne; simpl;
    try reflexivity; try contradiction.
  apply IH. congruence.
Qed.

Lemma heap_set_unchanged (h : list pydict) (l : loc) (d : pydict) :
  nth_error h l = Some d -> heap_set h l d = h.
Proof.
  revert l; induction h as [|d' h IH]; intros [|l]; simpl; intros H;
    try discriminate.
  - now injection H as ->.
  - now rewrite IH.
Qed.

Lemma with_object_unchanged (w : world) (l : loc) (d : pydict) :
  nth_error (heap w) l = Some d -> with_object w l d = w.
Proof.
  intros H. unfold with_object. rewrite (heap_set_unchanged _ _ _ H).
  now destruct w.
Qed.

(** ** The phases of the instantiator *)

Lemma pop_run (w : world) (l : loc) (key : string) (d : pydict) :
  nth_error (heap w) l = Some d ->
  pop l key w
  = match dict_get d key with
    | Some v => (Returns v, with_object w l (dict_remove d key))
    | None => (Raises KeyError, w)
    end.
Proof.
  intros H. unfold pop, bindM, load. rewrite H.
  destruct (dict_get d key); reflexivity.
Qed.

Lemma pop_default_run (w : world) (l : loc) (key : string) (dflt : pyval)
      (d : pydict) :
  nth_error (heap w) l = Some d ->
  pop_default l key dflt w
  = (match dict_get d key with Some v => Returns v | None => Returns dflt end,
     with_object w l (dict_remove d key)).
Proof.
  intros H. unfold pop_default, bindM, load. rewrite H.
  destruct (dict_get d key) eqn:E; [reflexivity|].
  rewrite (dict_remove_absent _ _ E), (with_object_unchanged _ _ _ H).
  reflexivity.
Qed.

Lemma take_module_name_run (w : world) (cfg dfl : pydict) (ld : loc) :
  nth_error (heap w) ld = Some dfl ->
  take_module_name cfg ld w
  = match name_from cfg dfl "module_name" with
    | Some m =>
        (Returns (m, dict_remove cfg "module_name"),
         with_object w ld (dict_remove dfl "module_name"))
    | None => (Raises KeyError, w)
    end.
Proof.
  intros H. unfold take_module_name, name_from, supplied, dict_pop_default.
  destruct (dict_get cfg "module_name") as [v|] eqn:E.
  - destruct (is_none v) eqn:Ev.
    + unfold bindM. rewrite (pop_run _ _ _ _ H).
      destruct (dict_get dfl "module_name"); reflexivity.
    + unfold bindM. rewrite (pop_default_run _ _ _ _ _ H).
      destruct (dict_get dfl "module_name"); reflexivity.
  - rewrite (dict_remove_absent _ _ E). simpl. unfold bindM.
    rewrite (pop_run _ _ _ _ H).
    destruct (dict_get dfl "module_name"); reflexivity.
Qed.

Lemma take_class_name_run (w : world) (cfg dfl : pydict) (ld : loc) :
  nth_error (heap w) ld = Some dfl ->
  take_class_name cfg ld w
  = match supplied cfg "class_name" with
    | Some c =>
        (Returns (c, dict_remove cfg "class_name"),
         with_object w ld (dict_remove dfl "class_name"))
    | None =>
        let w' :=
          with_events w [EvWarning (dict_get (dict_remove cfg "class_name") "name")] in
        match dict_get dfl "class_name" with
        | Some c =>
            (Returns (c, dict_remove cfg "class_name"),
             with_object w' ld (dict_remove dfl "class_name"))
        | None => (Raises KeyError, w')
        end
    end.
Proof.
  intros H. unfold take_class_name, supplied, dict_pop_default.
  destruct (dict_get cfg "class_name") as [v|] eqn:E.
  - destruct (is_none v) eqn:Ev.
    + unfold bindM at 1 2. unfold emit at 1.
      rewrite (pop_run (mkWorld _ _) ld "class_name" dfl H).
      destruct (dict_get dfl "class_name"); reflexivity.
    + unfold bindM. rewrite (pop_default_run _ _ _ _ _ H).
      destruct (dict_get dfl "class_name"); reflexivity.
  - rewrite (dict_remove_absent _ _ E). simpl. unfold bindM at 1 2.
    unfold emit at 1.
    rewrite (pop_run (mkWorld _ _) ld "class_name" dfl H).
    destruct (dict_get dfl "class_name"); reflexivity.
Qed.

Section InstantiatorFacts.

Variable verify_dynamic_loading_support : pyval -> option exn.
Variable load_class : pyval -> pyval -> outcome pyclass.

Let build := build_instance load_class.
Let instantiate :=
  instantiate_class_from_config verify_dynamic_loading_support load_class.

(** The last phase writes nothing to the store; it logs the loading of
    the class first. *)
Lemma build_instance_quiet c m cfg rt ld w :
  heap (snd (build c m cfg rt ld w)) = heap w
  /\ exists evs,
      log (snd (build c m cfg rt ld w)) = (log w ++ EvLoadClass c m :: evs)%list.
Proof.
  unfold build, build_instance, bindM, emit, lift, load, ret, raise. simpl.
  destruct (load_class c m) as [cls| |]; simpl;
    try (split; [reflexivity | exists []; reflexivity]).
  destruct (nth_error (heap w) ld) as [dfl|]; simpl;
    try (split; [reflexivity | exists []; reflexivity]).
  destruct rt as [r|]; simpl.
  - destruct (nth_error (heap w) r) as [renv|]; simpl;
      try (split; [reflexivity | exists []; reflexivity]).
    destruct (construct cls _) as [v|[]|]; simpl;
      (split; [reflexivity|]);
      rewrite <- app_assoc; eexists; reflexivity.
  - destruct (construct cls _) as [v|[]|]; simpl;
      (split; [reflexivity|]);
      rewrite <- app_assoc; eexists; reflexivity.
Qed.

(** The last phase when the class loads: the keyword arguments of the
    call, and its result. *)
Lemma build_instance_run c m cfg rt ld w cls dfl :
  load_class c m = Returns cls ->
  nth_error (heap w) ld = Some dfl ->
  forall kwargs,
    match rt with
    | Some r =>
        exists renv, nth_error (heap w) r = Some renv
                     /\ kwargs = with_runtime_environment cls
                                   (dict_update dfl cfg) renv
    | None => kwargs = dict_update dfl cfg
    end ->
    build c m cfg rt ld w
    = (match construct cls kwargs with
       | Raises TypeError => Raises TypeError
       | r => r
       end,
       with_events w [EvLoadClass c m; EvConstruct kwargs]).
Proof.
  intros Hc Hd kwargs Hk.
  unfold build, build_instance, bindM, emit, lift, load, ret, raise. simpl.
  rewrite Hc. simpl. rewrite Hd. simpl.
  destruct rt as [r|].
  - destruct Hk as (renv & Hr & ->). simpl. rewrite Hr. simpl.
    unfold with_events. simpl. rewrite <- app_assoc. simpl.
    destruct (construct cls _) as [v|[]|]; reflexivity.
  - subst kwargs. simpl.
    unfold with_events. simpl. rewrite <- app_assoc. simpl.
    destruct (construct cls _) as [v|[]|]; reflexivity.
Qed.

(** The run of the whole function from a store that holds [cfg] at
    [config] and [dfl] at [config_defaults], phase by phase. *)
Lemma instantiate_run lc rt ld w cfg dfl :
  nth_error (heap w) lc = Some cfg ->
  nth_error (heap w) ld = Some dfl ->
  instantiate lc rt (Some ld) w
  = match name_from cfg dfl "module_name" with
    | None => (Raises KeyError, w)
    | Some m =>
        let w1 :=
          with_events (with_object w ld (dict_remove dfl "module_name"))
                      [EvVerify m] in
        match verify_dynamic_loading_support m with
        | Some e => (Raises e, w1)
        | None =>
            match take_class_name (dict_remove cfg "module_name") ld w1 with
            | (Returns (c, cfg2), w2) => build c m cfg2 rt ld w2
            | (Raises e, w2) => (Raises e, w2)
            | (OutOfFuel, w2) => (OutOfFuel, w2)
            end
        end
    end.
Proof.
  intros Hc Hd.
  unfold instantiate, instantiate_class_from_config.
  unfold bindM at 1. unfold ret at 1.
  unfold bindM at 1. unfold load at 1. rewrite Hc.
  unfold bindM at 1. rewrite (take_module_name_run w cfg dfl ld Hd).
  destruct (name_from cfg dfl "module_name") as [m|]; [|reflexivity].
  unfold bindM at 1. unfold emit at 1.
  unfold bindM at 1.
  destruct (verify_dynamic_loading_support m) as [e|]; [reflexivity|].
  unfold ret at 1. unfold bindM at 1. cbv zeta.
  unfold with_events, with_object. simpl.
  destruct (take_class_name _ ld _) as [[[c cfg2]| |] w2]; reflexivity.
Qed.

End InstantiatorFacts.

Lemma heap_set_twice (h : list pydict) (l : loc) (d d' : pydict) :
  heap_set (heap_set h l d) l d' = heap_set h l d'.
Proof.
  revert l; induction h as [|d0 h IH]; intros [|l]; simpl; auto.
  now rewrite IH.
Qed.

Lemma supplied_remove_other (d : pydict) (k k' : string) :
  k' <> k -> supplied (dict_remove d k) k' = supplied d k'.
Proof. intros H. unfold supplied. now rewrite dict_get_remove_other. Qed.

(** Every run of the instantiator on a store that holds [cfg] at [config]
    and [dfl] at [config_defaults] is of one of four kinds: no module name;
    a module that fails the check; no class name; or both names found, in
    which case the class is loaded and the last phase runs. *)
Lemma instantiate_effect verify load_class lc rt ld w cfg dfl :
  nth_error (heap w) lc = Some cfg ->
  nth_error (heap w) ld = Some dfl ->
  let run := instantiate_class_from_config verify load_class lc rt (Some ld) w in
  let dfl1 := dict_remove dfl "module_name" in
  let dfl2 := dict_remove dfl1 "class_name" in
  (name_from cfg dfl "module_name" = None /\ run = (Raises KeyError, w))
  \/ (exists m e,
         name_from cfg dfl "module_name" = Some m
         /\ verify m = Some e
         /\ run = (Raises e, with_events (with_object w ld dfl1) [EvVerify m]))
  \/ (exists m warn,
         name_from cfg dfl "module_name" = Some m
         /\ verify m = None
         /\ name_from cfg dfl "class_name" = None
         /\ run = (Raises KeyError,
                   with_events (with_object w ld dfl1) [EvVerify m; warn]))
  \/ (exists m c warn evs,
         name_from cfg dfl "module_name" = Some m
         /\ verify m = None
         /\ name_from cfg dfl "class_name" = Some c
         /\ heap (snd run) = heap_set (heap w) ld dfl2
         /\ log (snd run)
            = (log w ++ EvVerify m :: warn ++ EvLoadClass c m :: evs)%list).
Proof.
  intros Hc Hd run dfl1 dfl2. subst run.
  rewrite (instantiate_run verify load_class lc rt ld w cfg dfl Hc Hd).
  destruct (name_from cfg dfl "module_name") as [m|] eqn:Em;
    [|left; auto].
  right. cbv zeta.
  destruct (verify m) as [e|] eqn:Ev.
  { left. exists m, e. auto. }
  right.
  set (w1 := with_events (with_object w ld (dict_remove dfl "module_name"))
                         [EvVerify m]).
  assert (H1 : nth_error (heap w1) ld = Some dfl1)
    by (apply (heap_set_same _ _ _ _ Hd)).
  rewrite (take_class_name_run w1 (dict_remove cfg "module_name") dfl1 ld H1).
  assert (Hs : supplied (dict_remove cfg "module_name") "class_name"
               = supplied cfg "class_name")
    by (apply supplied_remove_other; discriminate).
  assert (Hg : dict_get dfl1 "class_name" = dict_get dfl "class_name")
    by (apply dict_get_remove_other; discriminate).
  rewrite Hs, Hg. unfold name_from.
  destruct (supplied cfg "class_name") as [c|] eqn:Ec.
  - right. exists m, c, [].
    destruct (build_instance_quiet load_class c m
                (dict_remove (dict_remove cfg "module_name") "class_name")
                rt ld (with_object w1 ld (dict_remove dfl1 "class_name")))
      as [Hh [evs Hl]].
    exists evs. repeat split; auto.
    + rewrite Hh. simpl. apply heap_set_twice.
    + rewrite Hl. simpl. rewrite <- app_assoc. reflexivity.
  - cbv zeta. destruct (dict_get dfl "class_name") as [c|] eqn:Ec'.
    + right.
      set (warn := EvWarning
             (dict_get (dict_remove (dict_remove cfg "module_name") "class_name")
                       "name")).
      exists m, c, [warn].
      destruct (build_instance_quiet load_class c m
                (dict_remove (dict_remove cfg "module_name") "class_name")
                rt ld
                (with_object (with_events w1 [warn]) ld
                             (dict_remove dfl1 "class_name")))
        as [Hh [evs Hl]].
      exists evs. repeat split; auto.
      * rewrite Hh. simpl. apply heap_set_twice.
      * rewrite Hl. simpl. rewrite <- !app_assoc. reflexivity.
    + left. eexists m, _. repeat split; auto.
      unfold with_events, with_object, w1. simpl.
      rewrite <- app_assoc. reflexivity.
Qed.

Lemma name_from_config (cfg dfl : pydict) (key : string) (v : pyval) :
  dict_get cfg key = Some v -> v <> VNone -> name_from cfg dfl key = Some v.
Proof.
  intros H Hv. unfold name_from, supplied. rewrite H.
  destruct v; try reflexivity. contradiction.
Qed.

Lemma name_from_defaults (cfg dfl : pydict) (key : string) :
  dict_get cfg key = None \/ dict_get cfg key = Some VNone ->
  name_from cfg dfl key = dict_get dfl key.
Proof. unfold name_from, supplied. intros [-> | ->]; reflexivity. Qed.

Lemma name_from_none (cfg dfl : pydict) (key : string) :
  name_from cfg dfl key = None -> dict_get dfl key = None.
Proof.
  unfold name_from. destruct (supplied cfg key); [discriminate | auto].
Qed.

(** C7. Name resolution. The module name (and likewise the class name) is
    the one [config] holds under that key, when it holds one that is not
    [None]; otherwise the one [config_defaults] holds; with neither, the
    call raises [KeyError]. The module check is called with the module
    name found, and the loader with the class name and the module name
    found. After any call [config_defaults] has no [module_name] entry, and
    after any call that gets as far as finding the class name it has no
    [class_name] entry either. *)
Theorem name_resolution_consumes_defaults :
  forall verify load_class lc rt ld w cfg dfl,
    nth_error (heap w) lc = Some cfg ->
    nth_error (heap w) ld = Some dfl ->
    let run := instantiate_class_from_config verify load_class lc rt (Some ld) w in
    (forall key v, dict_get cfg key = Some v -> v <> VNone ->
                   name_from cfg dfl key = Some v)
    /\ (forall key, dict_get cfg key = None \/ dict_get cfg key = Some VNone ->
                    name_from cfg dfl key = dict_get dfl key)
    /\ (name_from cfg dfl "module_name" = None -> run = (Raises KeyError, w))
    /\ (exists dfl', nth_error (heap (snd run)) ld = Some dfl'
                     /\ dict_get dfl' "module_name" = None)
    /\ (forall m, name_from cfg dfl "module_name" = Some m ->
          (exists evs, log (snd run) = (log w ++ EvVerify m :: evs)%list)
          /\ (verify m = None ->
              (name_from cfg dfl "class_name" = None ->
               fst run = Raises KeyError)
              /\ (forall c, name_from cfg dfl "class_name" = Some c ->
                    (exists warn evs,
                        log (snd run)
                        = (log w ++ EvVerify m :: warn ++ EvLoadClass c m :: evs)%list)
                    /\ exists dfl',
                        nth_error (heap (snd run)) ld = Some dfl'
                        /\ dict_get dfl' "module_name" = None
                        /\ dict_get dfl' "class_name" = None))).
Proof.
  intros verify load_class lc rt ld w cfg dfl Hc Hd run.
  pose proof (instantiate_effect verify load_class lc rt ld w cfg dfl Hc Hd)
    as Heff.
  cbv zeta in Heff. fold run in Heff.
  split; [intros key v; apply name_from_config|].
  split; [intros key; apply name_from_defaults|].
  destruct Heff as [(Em & Hr) | [(m & e & Em & Ev & Hr)
                  | [(m & warn & Em & Ev & Ec & Hr)
                  | (m & c & warn & evs & Em & Ev & Ec & Hh & Hl)]]].
  - (* no module name *)
    split; [intros _; exact Hr|]. split.
    + exists dfl. rewrite Hr. split; [exact Hd|].
      now apply name_from_none in Em.
    + intros m' Hm'. congruence.
  - (* the module fails the check *)
    split; [intros H; congruence|]. split.
    + exists (dict_remove dfl "module_name"). rewrite Hr. simpl. split.
      * apply (heap_set_same _ _ _ _ Hd).
      * apply dict_get_remove_same.
    + intros m' Hm'. rewrite Em in Hm'. injection Hm' as <-. split.
      * exists []. rewrite Hr. reflexivity.
      * intros Hv. congruence.
  - (* no class name *)
    split; [intros H; congruence|]. split.
    + exists (dict_remove dfl "module_name"). rewrite Hr. simpl. split.
      * apply (heap_set_same _ _ _ _ Hd).
      * apply dict_get_remove_same.
    + intros m' Hm'. rewrite Em in Hm'. injection Hm' as <-. split.
      * exists [warn]. rewrite Hr. reflexivity.
      * intros _. split; [intros _; rewrite Hr; reflexivity|].
        intros c Hc'. congruence.
  - (* both names found *)
    assert (Hdfl : exists dfl',
               nth_error (heap (snd run)) ld = Some dfl'
               /\ dict_get dfl' "module_name" = None
               /\ dict_get dfl' "class_name" = None).
    { exists (dict_remove (dict_remove dfl "module_name") "class_name").
      rewrite Hh. split; [apply (heap_set_same _ _ _ _ Hd)|]. split.
      - rewrite dict_get_remove_other by discriminate.
        apply dict_get_remove_same.
      - apply dict_get_remove_same. }
    split; [intros H; congruence|]. split.
    + destruct Hdfl as (dfl' & H1 & H2 & _). exists dfl'. auto.
    + intros m' Hm'. rewrite Em in Hm'. injection Hm' as <-. split.
      * rewrite Hl. eexists. reflexivity.
      * intros _. split; [intros H; congruence|].
        intros c' Hc'. rewrite Ec in Hc'. injection Hc' as <-.
        split; [exists warn, evs; exact Hl | exact Hdfl].
Qed.

(** The example of the specification: [config = {"class_name": "Foo"}],
    [config_defaults = {"module_name": "pkg.mod"}]. *)
Lemma name_resolution_consumes_defaults_witness :
  let run :=
    instantiate_class_from_config example_verify example_load_class 0 None
      (Some 1)
      (mkWorld [[("class_name", VStr "Foo")]; [("module_name", VStr "pkg.mod")]]
               []) in
  (exists warn evs,
      log (snd run)
      = ([] ++ EvVerify (VStr "pkg.mod")
            :: warn ++ EvLoadClass (VStr "Foo") (VStr "pkg.mod") :: evs)%list)
  /\ exists dfl',
      nth_error (heap (snd run)) 1 = Some dfl'
      /\ dict_get dfl' "module_name" = None
      /\ dict_get dfl' "class_name" = None.
Proof.
  pose proof (name_resolution_consumes_defaults example_verify
                example_load_class 0 None 1
                (mkWorld [[("class_name", VStr "Foo")];
                          [("module_name", VStr "pkg.mod")]] [])
                [("class_name", VStr "Foo")] [("module_name", VStr "pkg.mod")]
                eq_refl eq_refl) as (_ & _ & _ & _ & H).
  destruct (H (VStr "pkg.mod") eq_refl) as (_ & H').
  destruct (H' eq_refl) as (_ & H'').
  exact (H'' (VStr "Foo") eq_refl).
Defined.

Example instantiate_example :
  instantiate_class_from_config example_verify example_load_class 0 None
    (Some 1)
    (mkWorld [[("class_name", VStr "Foo")]; [("module_name", VStr "pkg.mod")]]
             [])
  = (Returns (VDict []),
     mkWorld [[("class_name", VStr "Foo")]; []]
             [EvVerify (VStr "pkg.mod");
              EvLoadClass (VStr "Foo") (VStr "pkg.mod");
              EvConstruct []]).
Proof. reflexivity. Qed.

Lemma dict_get_remove_some {V : Type} (d : list (string * V)) (k k' : string)
      (v : V) :
  dict_get (dict_remove d k) k' = Some v -> dict_get d k' = Some v.
Proof.
  destruct (String.eqb_spec k' k) as [->|Hne].
  - rewrite dict_get_remove_same. discriminate.
  - now rewrite dict_get_remove_other.
Qed.

(** Without a defaults mapping the function makes an empty one of its
    own. *)
Lemma instantiate_without_defaults verify load_class lc rt w :
  instantiate_class_from_config verify load_class lc rt None w
  = instantiate_class_from_config verify load_class lc rt
      (Some (List.length (heap w))) (mkWorld (heap w ++ [[]])%list (log w)).
Proof. reflexivity. Qed.

(** C10 (as the code has it). The frame of the mutation. For a call that
    is given two distinct objects as [config] and [config_defaults],
    whatever its outcome: the caller's [config] is as it was; so is every other object of the
    store; and [config_defaults] has lost at most its [module_name] and
    [class_name] entries, every other key being bound as before and
    nothing being added. A call without [config_defaults] changes no
    object of the caller at all. *)
Theorem mutation_frame :
  forall verify load_class lc rt ld w cfg dfl,
    nth_error (heap w) lc = Some cfg ->
    nth_error (heap w) ld = Some dfl ->
    lc <> ld ->
    let w' :=
      snd (instantiate_class_from_config verify load_class lc rt (Some ld) w) in
    let w'' :=
      snd (instantiate_class_from_config verify load_class lc rt None w) in
    nth_error (heap w') lc = Some cfg
    /\ (forall l, l <> ld -> nth_error (heap w') l = nth_error (heap w) l)
    /\ (exists dfl',
          nth_error (heap w') ld = Some dfl'
          /\ (dfl' = dfl
              \/ dfl' = dict_remove dfl "module_name"
              \/ dfl' = dict_remove (dict_remove dfl "module_name") "class_name")
          /\ (forall k, k <> "module_name" -> k <> "class_name" ->
                        dict_get dfl' k = dict_get dfl k)
          /\ (forall k v, dict_get dfl' k = Some v -> dict_get dfl k = Some v))
    /\ (forall l, l < List.length (heap w) ->
                  nth_error (heap w'') l = nth_error (heap w) l).
Proof.
  intros verify load_class lc rt ld w cfg dfl Hc Hd Hne w' w''.
  assert (Hheap : forall ld0 w0 dfl0,
             nth_error (heap w0) lc = Some cfg ->
             nth_error (heap w0) ld0 = Some dfl0 ->
             let h := heap (snd (instantiate_class_from_config verify
                                   load_class lc rt (Some ld0) w0)) in
             h = heap w0
             \/ h = heap_set (heap w0) ld0 (dict_remove dfl0 "module_name")
             \/ h = heap_set (heap w0) ld0
                      (dict_remove (dict_remove dfl0 "module_name") "class_name")).
  { intros ld0 w0 dfl0 Hc0 Hd0 h. subst h.
    destruct (instantiate_effect verify load_class lc rt ld0 w0 cfg dfl0
                Hc0 Hd0)
      as [(_ & Hr) | [(m & e & _ & _ & Hr) | [(m & warn & _ & _ & _ & Hr)
         | (m & c & warn & evs & _ & _ & _ & Hh & _)]]].
    - left. now rewrite Hr.
    - right; left. now rewrite Hr.
    - right; left. now rewrite Hr.
    - right; right. exact Hh. }
  assert (Hother : forall l, l <> ld ->
             nth_error (heap w') l = nth_error (heap w) l).
  { intros l Hl. subst w'.
    destruct (Hheap ld w dfl Hc Hd) as [-> | [-> | ->]];
      [reflexivity | now apply heap_set_other | now apply heap_set_other]. }
  split; [rewrite (Hother lc Hne); exact Hc|].
  split; [exact Hother|]. split.
  - subst w'. destruct (Hheap ld w dfl Hc Hd) as [-> | [-> | ->]].
    + exists dfl. repeat split; auto.
    + exists (dict_remove dfl "module_name").
      split; [apply (heap_set_same _ _ _ _ Hd)|].
      split; [auto|]. split.
      * intros k Hk _. now apply dict_get_remove_other.
      * intros k v. apply dict_get_remove_some.
    + exists (dict_remove (dict_remove dfl "module_name") "class_name").
      split; [apply (heap_set_same _ _ _ _ Hd)|].
      split; [auto|]. split.
      * intros k Hk Hk'. rewrite !dict_get_remove_other by assumption.
        reflexivity.
      * intros k v H. now do 2 apply dict_get_remove_some in H.
  - intros l Hl. subst w''. rewrite instantiate_without_defaults.
    assert (Hc1 : nth_error (heap w ++ [[]])%list lc = Some cfg).
    { rewrite nth_error_app1; [exact Hc|]. apply nth_error_Some. congruence. }
    assert (Hd1 : nth_error (heap w ++ [[]])%list (List.length (heap w))
                  = Some []).
    { rewrite nth_error_app2 by lia. now rewrite Nat.sub_diag. }
    destruct (Hheap (List.length (heap w))
                (mkWorld (heap w ++ [[]])%list (log w)) [] Hc1 Hd1)
      as [-> | [-> | ->]]; simpl.
    + now apply nth_error_app1.
    + rewrite heap_set_other by lia. now apply nth_error_app1.
    + rewrite heap_set_other by lia. now apply nth_error_app1.
Qed.

Lemma mutation_frame_witness :
  let w :=
    mkWorld [[("class_name", VStr "Foo"); ("name", VStr "n")];
             [("module_name", VStr "pkg.mod"); ("conn", VStr "c")]] [] in
  let w' :=
    snd (instantiate_class_from_config example_verify example_load_class
           0 None (Some 1) w) in
  nth_error (heap w') 0 = Some [("class_name", VStr "Foo"); ("name", VStr "n")]
  /\ exists dfl',
      nth_error (heap w') 1 = Some dfl'
      /\ (forall k, k <> "module_name" -> k <> "class_name" ->
                    dict_get dfl' k
                    = dict_get [("module_name", VStr "pkg.mod"); ("conn", VStr "c")] k).
Proof.
  pose proof (mutation_frame example_verify example_load_class 0 None 1
                (mkWorld [[("class_name", VStr "Foo"); ("name", VStr "n")];
                          [("module_name", VStr "pkg.mod"); ("conn", VStr "c")]] [])
                [("class_name", VStr "Foo"); ("name", VStr "n")]
                [("module_name", VStr "pkg.mod"); ("conn", VStr "c")]
                eq_refl eq_refl ltac:(discriminate))
    as (Hcfg & _ & (dfl' & Hd & _ & Hkeep & _) & _).
  split; [exact Hcfg|].
  exists dfl'. split; [exact Hd | exact Hkeep].
Defined.

(** C10 as stated fails for a call that is given one object both as
    [config] and as [config_defaults]: the copy protects [config] from the
    pops on the copy, not from the pops on the defaults, and the caller's
    [config] loses its [module_name] and [class_name] entries. *)
Lemma aliased_config_counterexample :
  let cfg := [("module_name", VStr "pkg.mod"); ("class_name", VStr "Foo");
              ("name", VStr "n")] in
  let w := mkWorld [cfg] [] in
  let w' :=
    snd (instantiate_class_from_config example_verify example_load_class
           0 None (Some 0) w) in
  nth_error (heap w) 0 = Some cfg
  /\ nth_error (heap w') 0 = Some [("name", VStr "n")]
  /\ nth_error (heap w') 0 <> nth_error (heap w) 0.
Proof. cbv zeta. repeat split. discriminate. Qed.

(** When one object is passed both as [config] and as [config_defaults],
    popping the defaults changes the caller's [config]. *)
Example aliased_config_is_depleted :
  heap (snd (instantiate_class_from_config example_verify example_load_class
               0 None (Some 0)
               (mkWorld [[("module_name", VStr "pkg.mod");
                          ("class_name", VStr "Foo")]] [])))
  = [[]].
Proof. reflexivity. Qed.

(** ** The runtime environment *)

Lemma mem_true (a : string) (l : list string) : mem a l = true <-> In a l.
Proof.
  unfold mem. rewrite existsb_exists. split.
  - intros (x & Hx & E). apply String.eqb_eq in E. now subst.
  - intros H. exists a. split; [exact H | apply String.eqb_refl].
Qed.

Lemma missing_spec (argspec : list string) (merged : pydict) (p : string) :
  In p (missing argspec merged) <-> In p argspec /\ dict_get merged p = None.
Proof.
  unfold missing, dict_contains. rewrite filter_In.
  destruct (dict_get merged p); simpl; intuition discriminate.
Qed.

Lemma dict_keys_set {V : Type} (d : list (string * V)) (k k' : string) (v : V) :
  In k' (dict_keys (dict_set d k v)) <-> k' = k \/ In k' (dict_keys d).
Proof.
  unfold dict_keys. induction d as [|[k0 v0] d IH]; simpl.
  - intuition.
  - destruct (String.eqb_spec k0 k) as [->|E]; simpl.
    + intuition.
    + rewrite IH. intuition.
Qed.

Lemma dict_set_nodup {V : Type} (d : list (string * V)) (k : string) (v : V) :
  NoDup (dict_keys d) -> NoDup (dict_keys (dict_set d k v)).
Proof.
  unfold dict_keys. induction d as [|[k0 v0] d IH]; simpl; intros H.
  - constructor; [intros [] | constructor].
  - inversion H as [|? ? Hnotin Hnd]; subst.
    destruct (String.eqb_spec k0 k) as [->|E]; simpl.
    + constructor; assumption.
    + constructor; [|now apply IH].
      intros Hin. apply (dict_keys_set d k k0 v) in Hin.
      destruct Hin as [-> | Hin]; [now apply E | now apply Hnotin].
Qed.

Lemma available_nodup (ms : list string) (renv : pydict) :
  NoDup (dict_keys (available ms renv)).
Proof.
  induction ms as [|a ms IH]; simpl; [constructor|].
  destruct (dict_get renv a); [now apply dict_set_nodup | exact IH].
Qed.

Lemma dict_get_available (ms : list string) (renv : pydict) (p : string) :
  dict_get (available ms renv) p
  = if mem p ms then dict_get renv p else None.
Proof.
  induction ms as [|a ms IH]; simpl; [reflexivity|].
  unfold mem in *. simpl.
  destruct (String.eqb_spec p a) as [->|Hne]; simpl.
  - destruct (dict_get renv a) as [v|] eqn:E.
    + apply dict_get_set_same.
    + rewrite IH. destruct (existsb (String.eqb a) ms); reflexivity.
  - destruct (dict_get renv a) as [v|] eqn:E.
    + rewrite dict_get_set_other by assumption. exact IH.
    + exact IH.
Qed.

(** The keyword arguments after the runtime environment has been
    consulted, key by key. *)
Lemma dict_get_with_runtime_environment cls merged renv p :
  dict_get (with_runtime_environment cls merged renv) p
  = match dict_get merged p with
    | Some v => Some v
    | None =>
        if mem p (tl (getfullargspec_args cls))
        then if String.eqb p "runtime_environment"
             then Some (VDict renv)
             else dict_get renv p
        else None
    end.
Proof.
  unfold with_runtime_environment.
  set (argspec := tl (getfullargspec_args cls)).
  set (ms := missing argspec merged).
  assert (Hms : forall q, mem q ms = true
                          <-> mem q argspec = true /\ dict_get merged q = None).
  { intros q. unfold ms. rewrite !mem_true. apply missing_spec. }
  assert (Hupd : dict_get (dict_update merged (available ms renv)) p
                 = match dict_get merged p with
                   | Some v => Some v
                   | None => if mem p argspec then dict_get renv p else None
                   end).
  { rewrite dict_get_update by apply available_nodup.
    rewrite dict_get_available.
    destruct (mem p ms) eqn:Em.
    - apply Hms in Em as [Ea En]. rewrite Ea, En.
      destruct (dict_get renv p); reflexivity.
    - destruct (dict_get merged p) as [v|] eqn:En; [reflexivity|].
      destruct (mem p argspec) eqn:Ea; [|reflexivity].
      assert (mem p ms = true) by (apply Hms; auto). congruence. }
  destruct (mem "runtime_environment" ms) eqn:Er.
  - apply Hms in Er as [Ea En].
    destruct (String.eqb_spec p "runtime_environment") as [->|Hne].
    + rewrite dict_get_set_same, En, Ea. reflexivity.
    + rewrite dict_get_set_other by assumption. rewrite Hupd.
      destruct (dict_get merged p); [reflexivity|].
      destruct (mem p argspec); reflexivity.
  - rewrite Hupd. destruct (dict_get merged p) as [v|] eqn:En; [reflexivity|].
    destruct (mem p argspec) eqn:Ea; [|reflexivity].
    destruct (String.eqb_spec p "runtime_environment") as [->|Hne];
      [|reflexivity].
    assert (mem "runtime_environment" ms = true) by (apply Hms; auto).
    congruence.
Qed.

(** The run of a call that finds both names, loads the class and is given
    a runtime environment that is an object of its own. *)
Lemma instantiate_with_runtime_environment_run
      verify load_class lc r ld w cfg dfl renv m c cls :
  nth_error (heap w) lc = Some cfg ->
  nth_error (heap w) ld = Some dfl ->
  nth_error (heap w) r = Some renv ->
  r <> ld ->
  name_from cfg dfl "module_name" = Some m ->
  verify m = None ->
  name_from cfg dfl "class_name" = Some c ->
  load_class c m = Returns cls ->
  let cfg2 := dict_remove (dict_remove cfg "module_name") "class_name" in
  let dfl2 := dict_remove (dict_remove dfl "module_name") "class_name" in
  let kwargs := with_runtime_environment cls (dict_update dfl2 cfg2) renv in
  exists warn,
    instantiate_class_from_config verify load_class lc (Some r) (Some ld) w
    = (match construct cls kwargs with
       | Raises TypeError => Raises TypeError
       | res => res
       end,
       mkWorld (heap_set (heap w) ld dfl2)
               (log w ++ EvVerify m
                  :: warn ++ [EvLoadClass c m; EvConstruct kwargs])%list).
Proof.
  intros Hc Hd Hr Hne Em Ev Ec Hl cfg2 dfl2 kwargs.
  rewrite (instantiate_run verify load_class lc (Some r) ld w cfg dfl Hc Hd).
  rewrite Em. cbv zeta. rewrite Ev.
  set (dfl1 := dict_remove dfl "module_name").
  set (w1 := with_events (with_object w ld dfl1) [EvVerify m]).
  assert (H1 : nth_error (heap w1) ld = Some dfl1)
    by (apply (heap_set_same _ _ _ _ Hd)).
  rewrite (take_class_name_run w1 (dict_remove cfg "module_name") dfl1 ld H1).
  assert (Hs : supplied (dict_remove cfg "module_name") "class_name"
               = supplied cfg "class_name")
    by (apply supplied_remove_other; discriminate).
  assert (Hg : dict_get dfl1 "class_name" = dict_get dfl "class_name")
    by (apply dict_get_remove_other; discriminate).
  rewrite Hs, Hg. unfold name_from in Ec.
  assert (Hbuild : forall w2,
             heap w2 = heap_set (heap w) ld dfl2 ->
             build_instance load_class c m cfg2 (Some r) ld w2
             = (match construct cls kwargs with
                | Raises TypeError => Raises TypeError
                | res => res
                end,
                with_events w2 [EvLoadClass c m; EvConstruct kwargs])).
  { intros w2 Hh.
    apply (build_instance_run load_class c m cfg2 (Some r) ld w2 cls dfl2 Hl).
    - rewrite Hh. apply (heap_set_same _ _ _ _ Hd).
    - exists renv. split; [|reflexivity].
      rewrite Hh, heap_set_other by assumption. exact Hr. }
  destruct (supplied cfg "class_name") as [c0|] eqn:Es.
  - injection Ec as ->. exists [].
    rewrite Hbuild by (simpl; apply heap_set_twice).
    unfold with_events, with_object, w1. simpl.
    rewrite heap_set_twice, <- app_assoc. reflexivity.
  - cbv zeta. rewrite Ec. eexists [_].
    rewrite Hbuild by (simpl; apply heap_set_twice).
    unfold with_events, with_object, w1. simpl.
    rewrite heap_set_twice, <- !app_assoc. reflexivity.
Qed.

(** C5 (as the code has it). A call that finds both names, loads the
    class and is given a runtime environment calls the class with the
    merged arguments of [config] and the defaults, extended as follows. A
    key of the merged arguments keeps its value, also the key
    [runtime_environment]. A parameter of the constructor (other than the
    first, [self]) that the merged arguments lack and that is not named
    [runtime_environment] gets the value the runtime environment holds
    under its name, if any. A parameter named [runtime_environment] that
    the merged arguments lack gets the whole runtime environment, whether
    or not the runtime environment has an entry of that name. Nothing else
    is added. *)
Theorem runtime_environment_fills_missing_parameters :
  forall verify load_class lc r ld w cfg dfl renv m c cls,
    nth_error (heap w) lc = Some cfg ->
    nth_error (heap w) ld = Some dfl ->
    nth_error (heap w) r = Some renv ->
    r <> ld ->
    name_from cfg dfl "module_name" = Some m ->
    verify m = None ->
    name_from cfg dfl "class_name" = Some c ->
    load_class c m = Returns cls ->
    let merged :=
      dict_update (dict_remove (dict_remove dfl "module_name") "class_name")
                  (dict_remove (dict_remove cfg "module_name") "class_name") in
    let params := tl (getfullargspec_args cls) in
    exists kwargs,
      (exists warn,
          instantiate_class_from_config verify load_class lc (Some r) (Some ld) w
          = (match construct cls kwargs with
             | Raises TypeError => Raises TypeError
             | res => res
             end,
             mkWorld (heap_set (heap w) ld
                        (dict_remove (dict_remove dfl "module_name") "class_name"))
                     (log w ++ EvVerify m
                        :: warn ++ [EvLoadClass c m; EvConstruct kwargs])%list))
      /\ (forall p v, dict_get merged p = Some v -> dict_get kwargs p = Some v)
      /\ (forall p, In p params -> dict_get merged p = None ->
                    p <> "runtime_environment" ->
                    dict_get kwargs p = dict_get renv p)
      /\ (In "runtime_environment" params ->
          dict_get merged "runtime_environment" = None ->
          dict_get kwargs "runtime_environment" = Some (VDict renv))
      /\ (forall p, ~ In p params -> dict_get merged p = None ->
                    dict_get kwargs p = None).
Proof.
  intros verify load_class lc r ld w cfg dfl renv m c cls
         Hc Hd Hr Hne Em Ev Ec Hl merged params.
  exists (with_runtime_environment cls merged renv).
  split.
  - apply (instantiate_with_runtime_environment_run verify load_class lc r ld
             w cfg dfl renv m c cls); assumption.
  - repeat split.
    + intros p v H. rewrite dict_get_with_runtime_environment, H. reflexivity.
    + intros p Hin Hn Hne'.
      rewrite dict_get_with_runtime_environment, Hn.
      apply mem_true in Hin. fold params. rewrite Hin.
      apply String.eqb_neq in Hne'. now rewrite Hne'.
    + intros Hin Hn.
      rewrite dict_get_with_runtime_environment, Hn.
      apply mem_true in Hin. fold params. now rewrite Hin.
    + intros p Hin Hn.
      rewrite dict_get_with_runtime_environment, Hn. fold params.
      destruct (mem p params) eqn:E; [|reflexivity].
      apply mem_true in E. contradiction.
Qed.

(** The example of the specification: the constructor declares [conn],
    neither [config] nor the defaults have it, and the runtime environment
    does. *)
Lemma runtime_environment_fills_missing_parameters_witness :
  let cfg := [("module_name", VStr "pkg.mod"); ("class_name", VStr "Foo");
              ("name", VStr "n")] in
  let renv := [("conn", VStr "X")] in
  exists kwargs,
    (exists warn,
        instantiate_class_from_config example_verify example_load_class
          0 (Some 2) (Some 1) (mkWorld [cfg; []; renv] [])
        = (match construct Foo kwargs with
           | Raises TypeError => Raises TypeError
           | res => res
           end,
           mkWorld [cfg; []; renv]
                   ([] ++ EvVerify (VStr "pkg.mod")
                       :: warn ++ [EvLoadClass (VStr "Foo") (VStr "pkg.mod");
                                   EvConstruct kwargs])%list))
    /\ dict_get kwargs "name" = Some (VStr "n")
    /\ dict_get kwargs "conn" = Some (VStr "X")
    /\ dict_get kwargs "runtime_environment" = Some (VDict renv).
Proof.
  cbv zeta.
  destruct (runtime_environment_fills_missing_parameters example_verify
              example_load_class 0 2 1
              (mkWorld [[("module_name", VStr "pkg.mod");
                         ("class_name", VStr "Foo"); ("name", VStr "n")];
                        []; [("conn", VStr "X")]] [])
              [("module_name", VStr "pkg.mod"); ("class_name", VStr "Foo");
               ("name", VStr "n")]
              [] [("conn", VStr "X")] (VStr "pkg.mod") (VStr "Foo") Foo
              eq_refl eq_refl eq_refl ltac:(discriminate)
              eq_refl eq_refl eq_refl eq_refl)
    as (kwargs & Hrun & Hkeep & Hfill & Hwhole & _).
  exists kwargs. split; [exact Hrun|]. split; [|split].
  - apply Hkeep. reflexivity.
  - apply (Hfill "conn").
    + left; reflexivity.
    + reflexivity.
    + discriminate.
  - apply Hwhole.
    + right; right; left; reflexivity.
    + reflexivity.
Defined.

(** C5 as stated fails when [config] itself has a [runtime_environment]
    key: the constructor declares the parameter, and yet the call receives
    the value of [config], not the runtime environment. *)
Lemma runtime_environment_not_injected_counterexample :
  let cfg := [("module_name", VStr "pkg.mod"); ("class_name", VStr "Foo");
              ("runtime_environment", VInt 1)] in
  let renv := [("conn", VStr "X")] in
  let run :=
    instantiate_class_from_config example_verify example_load_class
      0 (Some 1) None (mkWorld [cfg; renv] []) in
  In "runtime_environment" (tl (getfullargspec_args Foo))
  /\ exists kwargs,
      In (EvConstruct kwargs) (log (snd run))
      /\ dict_get kwargs "runtime_environment" = Some (VInt 1)
      /\ dict_get kwargs "runtime_environment" <> Some (VDict renv).
Proof.
  cbv zeta. split; [right; right; left; reflexivity|].
  exists [("runtime_environment", VInt 1); ("conn", VStr "X")].
  split; [right; right; left; reflexivity|].
  split; [reflexivity | discriminate].
Qed.

(** ** The examples of the specification, evaluated *)

Example substitute_two_from_store :
  substitute_config_variable [] 5 (VStr "pg://${HOST}/$DB?x")
    [("HOST", VStr "h"); ("DB", VStr "d")]
  = Returns (VStr "pg://h/d?x").
Proof. reflexivity. Qed.

Example substitute_recursive_many :
  substitute_config_variable [] 5 (VStr "${A}-${A}")
    [("A", VStr "$B"); ("B", VStr "z")]
  = Returns (VStr "z-z").
Proof. reflexivity. Qed.

Example substitute_port :
  substitute_config_variable [] 0 (VStr "${PORT}") [("PORT", VInt 5432)]
  = Returns (VInt 5432).
Proof. reflexivity. Qed.

Example substitute_all_nested :
  substitute_all_config_variables [] 0
    (VDict [("k", VList [VStr "${A}"; VDict [("k2", VStr "${A}")]])])
    [("A", VStr "x")]
  = Returns (VDict [("k", VList [VStr "x"; VDict [("k2", VStr "x")]])]).
Proof. reflexivity. Qed.

(** A value that refers to itself keeps the loop going: whatever the fuel,
    it runs out. *)
Example substitute_self_reference :
  forall fuel,
    substitute_config_variable [] fuel (VStr "$A $A") [("A", VStr "$A")]
    = OutOfFuel.
Proof.
  intros fuel. unfold substitute_config_variable. simpl.
  change (scan "$A $A") with [mkCandidate "$A" "A" 0 2; mkCandidate "$A" "A" 3 5].
  induction fuel as [|fuel IH]; [reflexivity|].
  rewrite while_candidates_step. simpl os_getenv. cbv iota.
  simpl dict_get. cbv iota. exact IH.
Qed.

(* ================================================================== *)
(** * Further properties *)

(** ** More on the finder *)

Lemma slice_from_add (n k : nat) (s : string) :
  slice_from k (slice_from n s) = slice_from (n + k) s.
Proof.
  revert s; induction n as [|n IH]; intros s; simpl; [reflexivity|].
  destruct s as [|c s]; [now destruct k | apply IH].
Qed.

Lemma clean_is_clean (s : string) : clean_text (clean s) = true.
Proof.
  induction s as [|c s IH]; simpl; [reflexivity|].
  destruct (Ascii.eqb c "$" || Ascii.eqb c "{" || Ascii.eqb c "}")%bool eqn:E;
    [exact IH|].
  simpl. now rewrite E, IH.
Qed.

Lemma clean_of_clean_text (s : string) : clean_text s = true -> clean s = s.
Proof.
  induction s as [|c s IH]; simpl; [reflexivity|].
  destruct (Ascii.eqb c "$" || Ascii.eqb c "{" || Ascii.eqb c "}")%bool;
    simpl; [discriminate|]. intros H. now rewrite IH.
Qed.

Lemma ident_char_is_clean (c : ascii) :
  is_ident_char c = true ->
  (Ascii.eqb c "$" || Ascii.eqb c "{" || Ascii.eqb c "}")%bool = false.
Proof.
  intros H.
  destruct (Ascii.eqb_spec c "$") as [->|_]; [discriminate H|].
  destruct (Ascii.eqb_spec c "{") as [->|_]; [discriminate H|].
  destruct (Ascii.eqb_spec c "}") as [->|_]; [discriminate H|].
  reflexivity.
Qed.

Lemma all_ident_clean_text (s : string) :
  all_ident s = true -> clean_text s = true.
Proof.
  induction s as [|c s IH]; simpl; [reflexivity|].
  intros H. apply andb_true_iff in H as [Hc Hs].
  now rewrite (ident_char_is_clean c Hc), IH.
Qed.

Lemma ident_tail_all (r rest : string) :
  all_ident r = true -> ident_tail rest = 0 ->
  ident_tail (r ++ rest) = String.length r.
Proof.
  induction r as [|c r IH]; simpl; intros Hr Hrest; [exact Hrest|].
  apply andb_true_iff in Hr as [Hc Hr]. now rewrite Hc, IH.
Qed.

(** X1. Every candidate is a real occurrence: its span is non-empty and
    lies in the template, its matched text is the text of the template at
    that span and starts with a dollar sign, and its clean name is the
    matched text without dollar signs and braces. *)
Theorem candidates_are_occurrences :
  forall s c,
    In c (scan s) ->
    start c < end_ c
    /\ end_ c <= String.length s
    /\ match_ c = slice_to (end_ c - start c) (slice_from (start c) s)
    /\ String.length (match_ c) = end_ c - start c
    /\ (exists d r, match_ c = String "$" (String d r))
    /\ clean_match c = clean (match_ c)
    /\ clean_text (clean_match c) = true.
Proof.
  intros s c Hin.
  apply scan_located in Hin as (_ & Hlt & Hhi & Hm & Ht & Hc).
  rewrite Nat.sub_0_r in Hm, Ht. simpl in Hhi.
  apply match_at_shape in Hm as Hshape.
  destruct Hshape as (d & r & Hs & _ & Hlen).
  repeat split; auto.
  - rewrite Ht, slice_to_length, slice_from_length. lia.
  - rewrite Ht, Hs.
    destruct (end_ c - start c) as [|[|k]]; try lia.
    simpl. eauto.
  - rewrite Hc. apply clean_is_clean.
Qed.

Lemma candidates_are_occurrences_witness :
  start (mkCandidate "${y z}" "y z" 4 10) < end_ (mkCandidate "${y z}" "y z" 4 10)
  /\ end_ (mkCandidate "${y z}" "y z" 4 10) <= String.length "a$x-${y z}$1${".
Proof.
  pose proof (candidates_are_occurrences "a$x-${y z}$1${"
                (mkCandidate "${y z}" "y z" 4 10)
                ltac:(right; left; reflexivity)) as (H1 & H2 & _).
  split; [exact H1 | exact H2].
Defined.

Lemma match_at_dollar_free (s : string) :
  dollar_free s = true -> match_at s = None.
Proof.
  destruct s as [|c s]; [reflexivity|]. simpl.
  destruct (Ascii.eqb_spec c "$") as [->|Hne]; [discriminate|]. intros _.
  destruct c as [[] [] [] [] [] [] [] []]; try reflexivity.
  now contradiction Hne.
Qed.

Lemma finditer_dollar_free (s : string) :
  dollar_free s = true -> forall pos skip, finditer s pos skip = [].
Proof.
  induction s as [|c s IH]; intros H pos skip; [reflexivity|].
  cbn [finditer]. rewrite (match_at_dollar_free _ H).
  simpl in H. apply andb_true_iff in H as [_ H].
  destruct skip; now apply IH.
Qed.

(** X2. The identity law: a template without a dollar sign has no
    candidate, and substitution returns it unchanged whatever the
    environment, the variable store and the fuel. *)
Theorem dollar_free_template_is_unchanged :
  forall env fuel store s,
    dollar_free s = true ->
    find_substitution_candidates (VStr s) = Returns []
    /\ substitute_config_variable env fuel (VStr s) store = Returns (VStr s).
Proof.
  intros env fuel store s H.
  assert (Hs : scan s = []) by (now apply finditer_dollar_free).
  split.
  - simpl. now rewrite Hs.
  - unfold substitute_config_variable. simpl. rewrite Hs.
    apply while_candidates_nil.
Qed.

Lemma dollar_free_template_is_unchanged_witness :
  substitute_config_variable [("HOME", "/root")] 0 (VStr "sqlite:///db {x}")
    [("x", VInt 1)]
  = Returns (VStr "sqlite:///db {x}").
Proof.
  exact (proj2 (dollar_free_template_is_unchanged [("HOME", "/root")] 0
                  [("x", VInt 1)] "sqlite:///db {x}" eq_refl)).
Defined.

Lemma finditer_count (s : string) :
  forall pos skip,
    skip <= String.length s ->
    2 * List.length (finditer s pos skip) + skip <= String.length s.
Proof.
  induction s as [|a s IH]; intros pos skip Hskip; [simpl in *; lia|].
  cbn [finditer]. destruct skip as [|k].
  - destruct (match_at (String a s)) as [len|] eqn:E.
    + apply match_at_shape in E as (d & r & _ & _ & Hlen).
      simpl in Hlen. simpl List.length.
      specialize (IH (S pos) (len - 1) ltac:(lia)). simpl String.length. lia.
    + specialize (IH (S pos) 0 ltac:(lia)). simpl String.length. lia.
  - simpl in Hskip. specialize (IH (S pos) k ltac:(lia)).
    simpl String.length. lia.
Qed.

(** X3. A template of [n] characters has at most [n / 2] candidates: every
    match takes at least two characters and matches do not overlap. *)
Theorem candidates_are_few :
  forall s, 2 * List.length (scan s) <= String.length s.
Proof.
  intros s. pose proof (finditer_count s 0 0 ltac:(lia)). unfold scan. lia.
Qed.

(** X4. The bare form is greedy and keeps the name as it is: a dollar
    sign, a name that starts with a letter or an underscore and goes on
    with letters, digits and underscores, and then the end of the template
    or a character that cannot go on a name, gives a first candidate that
    spans the dollar sign and the whole name, with the name as its clean
    name. *)
Theorem bare_form_takes_whole_name :
  forall c r rest,
    is_ident_start c = true ->
    all_ident r = true ->
    ident_tail rest = 0 ->
    hd_error (scan (String "$" (String c (r ++ rest))))
    = Some (mkCandidate (String "$" (String c r)) (String c r) 0
              (2 + String.length r)).
Proof.
  intros c r rest Hc Hr Hrest. unfold scan. cbn [finditer match_at].
  change (Ascii.eqb "$" "$") with true. cbv iota.
  destruct (Ascii.eqb_spec c "{") as [->|_]; [discriminate Hc|].
  rewrite Hc, (ident_tail_all r rest Hr Hrest). cbn [hd_error].
  cbn [Nat.add slice_to]. rewrite slice_to_append.
  do 2 f_equal.
  change (clean (String "$" (String c r))) with (clean (String c r)).
  apply clean_of_clean_text. apply (all_ident_clean_text (String c r)).
  simpl. unfold is_ident_char. now rewrite Hc, Hr.
Qed.

Lemma bare_form_takes_whole_name_witness :
  hd_error (scan "$DB_1-x")
  = Some (mkCandidate "$DB_1" "DB_1" 0 5).
Proof.
  exact (bare_form_takes_whole_name "D" "B_1" "-x" eq_refl eq_refl eq_refl).
Defined.

(** X5. Splicing and spans. Putting the matched text of a candidate back
    at its span gives the template again, and splicing any value at the
    span of a candidate changes the length by the length of the value less
    the length of the span. *)
Theorem splice_at_candidate :
  forall s c,
    In c (scan s) ->
    splice s c (match_ c) = s
    /\ (forall value,
          String.length (splice s c value) + (end_ c - start c)
          = String.length s + String.length value).
Proof.
  intros s c Hin.
  apply scan_located in Hin as (_ & Hlt & Hhi & _ & Ht & _).
  rewrite Nat.sub_0_r in Ht. simpl in Hhi. unfold splice. split.
  - rewrite Ht.
    replace (slice_from (end_ c) s)
      with (slice_from (end_ c - start c) (slice_from (start c) s))
      by (rewrite slice_from_add; f_equal; lia).
    rewrite slice_split. apply slice_split.
  - intros value.
    rewrite !append_length, slice_to_length, slice_from_length. lia.
Qed.

Lemma splice_at_candidate_witness :
  splice "pg://${HOST}/db" (mkCandidate "${HOST}" "HOST" 5 12) "${HOST}"
  = "pg://${HOST}/db".
Proof.
  exact (proj1 (splice_at_candidate "pg://${HOST}/db"
                  (mkCandidate "${HOST}" "HOST" 5 12)
                  ltac:(left; reflexivity))).
Defined.

(** ** More on the substitution engine *)

(** X6. The text around a single placeholder is kept: when the only
    candidate of a template is resolved by a non-empty environment
    variable, or else by a string of the variable store, the result is the
    text before the placeholder, the value, and the text after the
    placeholder. *)
Theorem single_placeholder_keeps_surrounding_text :
  forall env fuel s store c value,
    scan s = [c] ->
    (os_getenv env (clean_match c) = Some value /\ value <> "")
    \/ (truthy (os_getenv env (clean_match c)) = false
        /\ dict_get store (clean_match c) = Some (VStr value)) ->
    exists before after,
      s = before ++ match_ c ++ after
      /\ String.length before = start c
      /\ substitute_config_variable env fuel (VStr s) store
         = Returns (VStr (before ++ value ++ after)).
Proof.
  intros env fuel s store c value Hs Hres.
  assert (Hin : In c (scan s)) by (rewrite Hs; left; reflexivity).
  apply scan_located in Hin as Hloc.
  destruct Hloc as (_ & Hlt & Hhi & _ & Ht & _).
  rewrite Nat.sub_0_r in Ht. simpl in Hhi.
  exists (slice_to (start c) s), (slice_from (end_ c) s).
  split; [|split].
  - rewrite Ht.
    replace (slice_from (end_ c) s)
      with (slice_from (end_ c - start c) (slice_from (start c) s))
      by (rewrite slice_from_add; f_equal; lia).
    rewrite slice_split. symmetry. apply slice_split.
  - rewrite slice_to_length. lia.
  - rewrite (substitute_single env fuel s store c Hs).
    destruct Hres as [[He Hne] | [He Hv]].
    + unfold single_candidate. rewrite He.
      destruct value as [|a e]; [contradiction|]. apply while_candidates_nil.
    + rewrite (single_candidate_falls_through env fuel s c store He), Hv.
      reflexivity.
Qed.

Lemma single_placeholder_keeps_surrounding_text_witness :
  exists before after,
    "pg://${HOST}/db" = before ++ "${HOST}" ++ after
    /\ String.length before = 5
    /\ substitute_config_variable [("HOST", "h")] 0 (VStr "pg://${HOST}/db") []
       = Returns (VStr (before ++ "h" ++ after)).
Proof.
  assert (Hne : "h" <> "") by discriminate.
  destruct (single_placeholder_keeps_surrounding_text [("HOST", "h")] 0
              "pg://${HOST}/db" [] (mkCandidate "${HOST}" "HOST" 5 12) "h"
              eq_refl (or_introl (conj eq_refl Hne)))
    as (before & after & H1 & H2 & H3).
  exists before, after. split; [exact H1 | split; [exact H2 | exact H3]].
Defined.

Lemma while_candidates_expands_fully env store :
  (forall name, truthy (os_getenv env name) = false) ->
  forall fuel s r,
    while_candidates env fuel s (scan s) store = Returns r ->
    exists t, r = VStr t /\ scan t = [].
Proof.
  intros Henv. induction fuel as [|fuel IH]; intros s r H.
  - destruct (scan s) as [|c q] eqn:E; [|discriminate H].
    simpl in H. injection H as <-. eauto.
  - destruct (scan s) as [|c q] eqn:E.
    + simpl in H. injection H as <-. eauto.
    + rewrite while_candidates_step in H.
      specialize (Henv (clean_match c)).
      destruct (os_getenv env (clean_match c)) as [[|a e]|];
        try discriminate Henv;
        (destruct (dict_get store (clean_match c)) as [[]|];
         try discriminate H; now apply IH in H).
Qed.

(** X7. Full expansion without the environment: when no environment
    variable is set to a non-empty string and the template does not have
    exactly one candidate, a result that is returned is a string without
    any candidate left in it. *)
Theorem store_only_result_has_no_placeholder :
  forall env fuel s store r,
    (forall name, truthy (os_getenv env name) = false) ->
    List.length (scan s) <> 1 ->
    substitute_config_variable env fuel (VStr s) store = Returns r ->
    exists t, r = VStr t /\ scan t = [].
Proof.
  intros env fuel s store r Henv Hlen H.
  unfold substitute_config_variable in H. simpl in H.
  destruct (scan s) as [|c [|c' cs]] eqn:E.
  - rewrite while_candidates_nil in H. injection H as <-. eauto.
  - simpl in Hlen. contradiction.
  - rewrite <- E in H.
    now apply (while_candidates_expands_fully env store Henv fuel s r).
Qed.

Lemma store_only_result_has_no_placeholder_witness :
  exists t, VStr "z-z" = VStr t /\ scan t = [].
Proof.
  assert (Hlen : List.length (scan "${A}-${A}") <> 1)
    by (intros H0; vm_compute in H0; discriminate H0).
  exact (store_only_result_has_no_placeholder [] 5 "${A}-${A}"
           [("A", VStr "$B"); ("B", VStr "z")] (VStr "z-z")
           (fun _ => eq_refl) Hlen eq_refl).
Defined.

(** X8. In a template with two or more candidates a value of the variable
    store that is not a string cannot be spliced: when the first candidate
    is not resolved by the environment and its stored value is not a
    string, the call raises [TypeError], also when the stored value is the
    one that a template made of that placeholder alone would return. *)
Theorem non_string_value_among_several_raises :
  forall env fuel s store c c' cs value,
    scan s = c :: c' :: cs ->
    truthy (os_getenv env (clean_match c)) = false ->
    dict_get store (clean_match c) = Some value ->
    isinstance_str value = false ->
    substitute_config_variable env (S fuel) (VStr s) store = Raises TypeError.
Proof.
  intros env fuel s store c c' cs value Hs He Hv Hn.
  rewrite (substitute_many env (S fuel) s store c c' cs Hs).
  rewrite while_candidates_step, Hv.
  destruct (os_getenv env (clean_match c)) as [[|a e]|];
    try discriminate He; destruct value; try discriminate Hn; reflexivity.
Qed.

Lemma non_string_value_among_several_raises_witness :
  substitute_config_variable [] 1 (VStr "${PORT}${PORT}") [("PORT", VInt 5432)]
  = Raises TypeError.
Proof.
  exact (non_string_value_among_several_raises [] 0 "${PORT}${PORT}"
           [("PORT", VInt 5432)] (mkCandidate "${PORT}" "PORT" 0 7)
           (mkCandidate "${PORT}" "PORT" 7 14) [] (VInt 5432)
           eq_refl eq_refl eq_refl eq_refl).
Defined.

Lemma while_candidates_more_fuel env store :
  forall fuel k s queue,
    while_candidates env fuel s queue store <> OutOfFuel ->
    while_candidates env (fuel + k) s queue store
    = while_candidates env fuel s queue store.
Proof.
  induction fuel as [|fuel IH]; intros k s queue H.
  - destruct queue as [|c q]; [|now contradiction H].
    simpl. apply while_candidates_nil.
  - destruct queue as [|c q]; [reflexivity|].
    simpl Nat.add. rewrite !while_candidates_step.
    rewrite while_candidates_step in H.
    destruct (os_getenv env (clean_match c)) as [[|a e]|];
      try (destruct (dict_get store (clean_match c)) as [[]|];
           try reflexivity; now apply IH);
      now apply IH.
Qed.

(** The fuel only bounds the loop: once a call returns or raises with
    some fuel, it does the same with any larger fuel. *)
Theorem result_does_not_depend_on_fuel :
  forall env fuel k template_str store,
    substitute_config_variable env fuel template_str store <> OutOfFuel ->
    substitute_config_variable env (fuel + k) template_str store
    = substitute_config_variable env fuel template_str store.
Proof.
  intros env fuel k template_str store H.
  destruct template_str; try reflexivity.
  unfold substitute_config_variable in *. simpl in *.
  destruct (scan s) as [|c [|c' cs]].
  - now apply while_candidates_more_fuel.
  - unfold single_candidate in *.
    destruct (os_getenv env (clean_match c)) as [[|a e]|];
      try (destruct (dict_get store (clean_match c)) as [[]|];
           try reflexivity; now apply while_candidates_more_fuel);
      now apply while_candidates_more_fuel.
  - now apply while_candidates_more_fuel.
Qed.

Lemma result_does_not_depend_on_fuel_witness :
  substitute_config_variable [] (4 + 3) (VStr "${A}-${A}")
    [("A", VStr "$B"); ("B", VStr "z")]
  = substitute_config_variable [] 4 (VStr "${A}-${A}")
      [("A", VStr "$B"); ("B", VStr "z")].
Proof.
  assert (H : substitute_config_variable [] 4 (VStr "${A}-${A}")
                [("A", VStr "$B"); ("B", VStr "z")] <> OutOfFuel)
    by (intros H0; vm_compute in H0; discriminate H0).
  exact (result_does_not_depend_on_fuel [] 4 3 (VStr "${A}-${A}")
           [("A", VStr "$B"); ("B", VStr "z")] H).
Defined.

(** ** More on the traversal *)

Lemma comprehension_raises {A B : Type} (body : A -> outcome B)
      (pre : list A) (a : A) (post : list A) (e : exn) :
  Forall (fun x => exists b, body x = Returns b) pre ->
  body a = Raises e ->
  comprehension body (pre ++ a :: post)%list = Raises e.
Proof.
  intros Hpre Ha. induction Hpre as [|x pre [b Hb] _ IH]; simpl.
  - now rewrite Ha.
  - rewrite Hb. simpl. fold (comprehension body). now rewrite IH.
Qed.

Lemma comprehension_same {A : Type} (body : A -> outcome A) (l : list A) :
  Forall (fun x => body x = Returns x) l ->
  comprehension body l = Returns l.
Proof.
  intros H. apply comprehension_returns.
  induction H; constructor; auto.
Qed.

(** X10. The leftmost failure decides: when the traversal of an element
    of a list (of a value of a mapping) raises and the traversal of every
    element (value) before it returns, the traversal of the whole list
    (mapping) raises that exception, whatever comes after. *)
Theorem leftmost_failure_propagates :
  forall env fuel vars v e,
    substitute_all_config_variables env fuel v vars = Raises e ->
    (forall pre post,
        Forall (fun x => exists r,
                    substitute_all_config_variables env fuel x vars = Returns r)
               pre ->
        substitute_all_config_variables env fuel
          (VList (pre ++ v :: post)%list) vars
        = Raises e)
    /\ (forall pre k post,
          Forall (fun kv => exists r,
                      substitute_all_config_variables env fuel (snd kv) vars
                      = Returns r)
                 pre ->
          substitute_all_config_variables env fuel
            (VDict (pre ++ (k, v) :: post)%list) vars
          = Raises e).
Proof.
  intros env fuel vars v e Hv. split.
  - intros pre post Hpre. cbn [substitute_all_config_variables].
    rewrite (comprehension_raises _ pre v post e); [reflexivity | exact Hpre | exact Hv].
  - intros pre k post Hpre. cbn [substitute_all_config_variables].
    rewrite (comprehension_raises _ pre (k, v) post e); [reflexivity | |].
    + eapply Forall_impl; [|exact Hpre].
      intros [k0 v0] [r Hr]. simpl in Hr. rewrite Hr. simpl. eauto.
    + rewrite Hv. reflexivity.
Qed.

Lemma leftmost_failure_propagates_witness :
  substitute_all_config_variables [] 0
    (VDict [("url", VStr "sqlite://"); ("port", VInt 5432); ("x", VStr "${U}")])
    []
  = Raises TypeError.
Proof.
  apply (proj2 (leftmost_failure_propagates [] 0 [] (VInt 5432) TypeError
                  eq_refl)
           [("url", VStr "sqlite://")] "port" [("x", VStr "${U}")]).
  constructor; [|constructor].
  exists (VStr "sqlite://"). reflexivity.
Defined.

(** X11. Data without placeholders is left alone: a nesting of mappings
    and lists whose leaves are [None] or strings without a dollar sign is
    returned unchanged, whatever the environment, the variable store and
    the fuel. *)
Theorem plain_data_is_unchanged :
  forall env fuel vars data,
    plain data = true ->
    substitute_all_config_variables env fuel data vars = Returns data.
Proof.
  intros env fuel vars data. induction data using pyval_nested_ind;
    intros Hp; try discriminate Hp.
  - reflexivity.
  - cbn [substitute_all_config_variables]. simpl in Hp.
    assert (Hs : scan s = []) by (now apply finditer_dollar_free).
    unfold substitute_config_variable. simpl. rewrite Hs.
    apply while_candidates_nil.
  - cbn [substitute_all_config_variables]. simpl in Hp.
    rewrite comprehension_same; [reflexivity|].
    rewrite forallb_forall in Hp. rewrite Forall_forall in *.
    intros x Hx. apply H; [exact Hx | now apply Hp].
  - cbn [substitute_all_config_variables]. simpl in Hp.
    rewrite comprehension_same; [reflexivity|].
    rewrite forallb_forall in Hp. rewrite Forall_forall in *.
    intros [k x] Hx. specialize (H (k, x) Hx (Hp (k, x) Hx)).
    cbn [snd] in H. cbv beta iota. rewrite H. reflexivity.
Qed.

Lemma plain_data_is_unchanged_witness :
  substitute_all_config_variables [("A", "a")] 0
    (VDict [("k", VList [VStr "x"; VNone; VDict [("k2", VStr "{y}")]])])
    [("A", VStr "x")]
  = Returns (VDict [("k", VList [VStr "x"; VNone; VDict [("k2", VStr "{y}")]])]).
Proof.
  exact (plain_data_is_unchanged [("A", "a")] 0 [("A", VStr "x")]
           (VDict [("k", VList [VStr "x"; VNone; VDict [("k2", VStr "{y}")]])])
           eq_refl).
Defined.

(** ** More on the instantiator *)

(** The events of the last phase: the loading of the class, and then the
    call of the class if the loader returned one. *)
Lemma build_instance_events load_class c m cfg rt ld w :
  exists evs,
    log (snd (build_instance load_class c m cfg rt ld w))
    = (log w ++ EvLoadClass c m :: evs)%list
    /\ (evs = []
        \/ exists cls kwargs,
            load_class c m = Returns cls /\ evs = [EvConstruct kwargs]).
Proof.
  unfold build_instance, bindM, emit, lift, load, ret, raise. simpl.
  destruct (load_class c m) as [cls| |] eqn:El; simpl;
    try (exists []; split; [reflexivity | left; reflexivity]).
  destruct (nth_error (heap w) ld) as [dfl|]; simpl;
    try (exists []; split; [reflexivity | left; reflexivity]).
  destruct rt as [r|]; simpl.
  - destruct (nth_error (heap w) r) as [renv|]; simpl;
      try (exists []; split; [reflexivity | left; reflexivity]).
    eexists [EvConstruct _].
    split; [|right; exists cls; eexists; split; reflexivity].
    destruct (construct cls _) as [v|[]|]; simpl;
      rewrite <- app_assoc; reflexivity.
  - eexists [EvConstruct _].
    split; [|right; exists cls; eexists; split; reflexivity].
    destruct (construct cls _) as [v|[]|]; simpl;
      rewrite <- app_assoc; reflexivity.
Qed.

(** What a run logs, by the way it ends. *)
Lemma instantiate_log verify load_class lc rt ld w cfg dfl :
  nth_error (heap w) lc = Some cfg ->
  nth_error (heap w) ld = Some dfl ->
  let run := instantiate_class_from_config verify load_class lc rt (Some ld) w in
  exists events,
    log (snd run) = (log w ++ events)%list
    /\ match name_from cfg dfl "module_name" with
       | None => events = []
       | Some m =>
           match verify m with
           | Some e => events = [EvVerify m]
           | None =>
               match name_from cfg dfl "class_name" with
               | None => events = EvVerify m :: class_name_warning cfg
               | Some c =>
                   exists evs,
                     events
                     = (EvVerify m
                          :: class_name_warning cfg ++ EvLoadClass c m :: evs)%list
                     /\ (evs = []
                         \/ exists cls kwargs,
                             load_class c m = Returns cls
                             /\ evs = [EvConstruct kwargs])
               end
           end
       end.
Proof.
  intros Hc Hd run. subst run.
  rewrite (instantiate_run verify load_class lc rt ld w cfg dfl Hc Hd).
  destruct (name_from cfg dfl "module_name") as [m|] eqn:Em.
  2:{ exists []. split; [simpl; now rewrite app_nil_r | reflexivity]. }
  cbv zeta. destruct (verify m) as [e|] eqn:Ev.
  { exists [EvVerify m]. split; reflexivity. }
  set (dfl1 := dict_remove dfl "module_name").
  set (w1 := with_events (with_object w ld dfl1) [EvVerify m]).
  assert (H1 : nth_error (heap w1) ld = Some dfl1)
    by (apply (heap_set_same _ _ _ _ Hd)).
  rewrite (take_class_name_run w1 (dict_remove cfg "module_name") dfl1 ld H1).
  assert (Hs : supplied (dict_remove cfg "module_name") "class_name"
               = supplied cfg "class_name")
    by (apply supplied_remove_other; discriminate).
  assert (Hg : dict_get dfl1 "class_name" = dict_get dfl "class_name")
    by (apply dict_get_remove_other; discriminate).
  assert (Hn : dict_get (dict_remove (dict_remove cfg "module_name") "class_name")
                        "name"
               = dict_get cfg "name")
    by (rewrite !dict_get_remove_other by discriminate; reflexivity).
  rewrite Hs, Hg, Hn. unfold name_from, class_name_warning.
  destruct (supplied cfg "class_name") as [c|] eqn:Ec.
  - destruct (build_instance_events load_class c m
                (dict_remove (dict_remove cfg "module_name") "class_name")
                rt ld (with_object w1 ld (dict_remove dfl1 "class_name")))
      as (evs & Hl & Hevs).
    exists (EvVerify m :: EvLoadClass c m :: evs). split.
    + rewrite Hl. simpl. rewrite <- app_assoc. reflexivity.
    + exists evs. split; [reflexivity | exact Hevs].
  - cbv zeta. destruct (dict_get dfl "class_name") as [c|] eqn:Ec'.
    + destruct (build_instance_events load_class c m
                (dict_remove (dict_remove cfg "module_name") "class_name")
                rt ld
                (with_object
                   (with_events w1 [EvWarning (dict_get cfg "name")]) ld
                   (dict_remove dfl1 "class_name")))
        as (evs & Hl & Hevs).
      exists (EvVerify m :: EvWarning (dict_get cfg "name")
                :: EvLoadClass c m :: evs). split.
      * rewrite Hl. simpl. rewrite <- !app_assoc. reflexivity.
      * exists evs. split; [reflexivity | exact Hevs].
    + exists [EvVerify m; EvWarning (dict_get cfg "name")]. split.
      * simpl. rewrite <- app_assoc. reflexivity.
      * reflexivity.
Qed.

(** X12. Nothing is loaded or built too early: whatever a call logs, the
    loader is called only with a module name and a class name that were
    found, and only after the module passed the check; and the class is
    called only after the loader returned a class for those names. *)
Theorem loader_is_called_after_the_names_are_found :
  forall verify load_class lc rt ld w cfg dfl events,
    nth_error (heap w) lc = Some cfg ->
    nth_error (heap w) ld = Some dfl ->
    log (snd (instantiate_class_from_config verify load_class lc rt (Some ld) w))
    = (log w ++ events)%list ->
    (forall c m,
        In (EvLoadClass c m) events ->
        name_from cfg dfl "module_name" = Some m
        /\ verify m = None
        /\ name_from cfg dfl "class_name" = Some c)
    /\ (forall kwargs,
          In (EvConstruct kwargs) events ->
          exists m c cls,
            name_from cfg dfl "module_name" = Some m
            /\ name_from cfg dfl "class_name" = Some c
            /\ load_class c m = Returns cls).
Proof.
  intros verify load_class lc rt ld w cfg dfl events Hc Hd Hlog.
  destruct (instantiate_log verify load_class lc rt ld w cfg dfl Hc Hd)
    as (events' & Hlog' & Hcase).
  cbv zeta in Hlog'. rewrite Hlog in Hlog'.
  apply app_inv_head in Hlog'. subst events'.
  assert (Hwarn : forall ev, In ev (class_name_warning cfg) ->
                             exists n, ev = EvWarning n).
  { unfold class_name_warning. intros ev Hin.
    destruct (supplied cfg "class_name"); [destruct Hin|].
    destruct Hin as [<-|[]]. eauto. }
  destruct (name_from cfg dfl "module_name") as [m|];
    [|subst events; split; intros; contradiction].
  destruct (verify m) as [e|] eqn:Ev.
  { subst events. split.
    - intros c m0 [H|[]]; discriminate H.
    - intros kw [H|[]]; discriminate H. }
  destruct (name_from cfg dfl "class_name") as [c|].
  - destruct Hcase as (evs & -> & Hevs). split.
    + intros c0 m0 [H|H]; [discriminate H|].
      apply in_app_or in H as [H|[H|H]].
      * apply Hwarn in H as [n H]. discriminate H.
      * injection H as <- <-. auto.
      * destruct Hevs as [->|(cls & kw & _ & ->)]; [destruct H|].
        destruct H as [H|[]]; discriminate H.
    + intros kw [H|H]; [discriminate H|].
      apply in_app_or in H as [H|[H|H]].
      * apply Hwarn in H as [n H]. discriminate H.
      * discriminate H.
      * destruct Hevs as [->|(cls & kw' & Hl & ->)]; [destruct H|].
        exists m, c, cls. auto.
  - subst events. split.
    + intros c m0 [H|H]; [discriminate H|].
      apply Hwarn in H as [n H]. discriminate H.
    + intros kw [H|H]; [discriminate H|].
      apply Hwarn in H as [n H]. discriminate H.
Qed.

Lemma loader_is_called_after_the_names_are_found_witness :
  name_from [("class_name", VStr "Foo")] [("module_name", VStr "pkg.mod")]
            "module_name" = Some (VStr "pkg.mod")
  /\ example_verify (VStr "pkg.mod") = None
  /\ name_from [("class_name", VStr "Foo")] [("module_name", VStr "pkg.mod")]
               "class_name" = Some (VStr "Foo").
Proof.
  exact (proj1 (loader_is_called_after_the_names_are_found example_verify
                  example_load_class 0 None 1
                  (mkWorld [[("class_name", VStr "Foo")];
                            [("module_name", VStr "pkg.mod")]] [])
                  [("class_name", VStr "Foo")] [("module_name", VStr "pkg.mod")]
                  [EvVerify (VStr "pkg.mod");
                   EvLoadClass (VStr "Foo") (VStr "pkg.mod");
                   EvConstruct []]
                  eq_refl eq_refl eq_refl)
           (VStr "Foo") (VStr "pkg.mod") ltac:(right; left; reflexivity)).
Defined.

(** X13. The warning. A call that finds the module name and passes the
    check logs a warning exactly when [config] supplies no class name (the
    key is absent or bound to [None]), whether or not the defaults then
    supply one; the warning shows the [name] entry of [config]. *)
Theorem warning_when_config_has_no_class_name :
  forall verify load_class lc rt ld w cfg dfl events m,
    nth_error (heap w) lc = Some cfg ->
    nth_error (heap w) ld = Some dfl ->
    log (snd (instantiate_class_from_config verify load_class lc rt (Some ld) w))
    = (log w ++ events)%list ->
    name_from cfg dfl "module_name" = Some m ->
    verify m = None ->
    ((exists n, In (EvWarning n) events) <-> supplied cfg "class_name" = None)
    /\ (forall n, In (EvWarning n) events -> n = dict_get cfg "name").
Proof.
  intros verify load_class lc rt ld w cfg dfl events m Hc Hd Hlog Em Ev.
  destruct (instantiate_log verify load_class lc rt ld w cfg dfl Hc Hd)
    as (events' & Hlog' & Hcase).
  cbv zeta in Hlog'. rewrite Hlog in Hlog'.
  apply app_inv_head in Hlog'. subst events'.
  rewrite Em, Ev in Hcase.
  assert (Hshape : exists evs,
             events = (EvVerify m :: class_name_warning cfg ++ evs)%list
             /\ forall n, ~ In (EvWarning n) evs).
  { destruct (name_from cfg dfl "class_name") as [c|].
    - destruct Hcase as (evs & -> & Hevs). exists (EvLoadClass c m :: evs).
      split; [reflexivity|]. intros n [H|H]; [discriminate H|].
      destruct Hevs as [->|(cls & kw & _ & ->)]; [destruct H|].
      destruct H as [H|[]]; discriminate H.
    - exists []. split; [now rewrite app_nil_r | intros n []]. }
  destruct Hshape as (evs & -> & Hevs).
  unfold class_name_warning in *.
  destruct (supplied cfg "class_name") as [c0|]; simpl; split.
  - split; [|discriminate]. intros [n [H|H]]; [discriminate H|].
    exfalso. now apply (Hevs n).
  - intros n [H|H]; [discriminate H|]. exfalso. now apply (Hevs n).
  - split; [reflexivity|]. intros _. exists (dict_get cfg "name").
    right; left; reflexivity.
  - intros n [H|[H|H]]; [discriminate H | now injection H as <- |].
    exfalso. now apply (Hevs n).
Qed.

Lemma warning_when_config_has_no_class_name_witness :
  (exists n,
      In (EvWarning n)
         [EvVerify (VStr "pkg.mod"); EvWarning (Some (VStr "ds"));
          EvLoadClass (VStr "Foo") (VStr "pkg.mod");
          EvConstruct [("name", VStr "ds")]])
  <-> supplied [("module_name", VStr "pkg.mod"); ("name", VStr "ds")]
               "class_name" = None.
Proof.
  exact (proj1 (warning_when_config_has_no_class_name example_verify
                  example_load_class 0 None 1
                  (mkWorld [[("module_name", VStr "pkg.mod"); ("name", VStr "ds")];
                            [("class_name", VStr "Foo")]] [])
                  [("module_name", VStr "pkg.mod"); ("name", VStr "ds")]
                  [("class_name", VStr "Foo")]
                  [EvVerify (VStr "pkg.mod"); EvWarning (Some (VStr "ds"));
                   EvLoadClass (VStr "Foo") (VStr "pkg.mod");
                   EvConstruct [("name", VStr "ds")]]
                  (VStr "pkg.mod") eq_refl eq_refl eq_refl eq_refl eq_refl)).
Defined.

(** X14. A module that fails the check: the call raises the exception of
    the check and stops there, having logged the check only; the defaults
    have lost their [module_name] entry by then and still have their
    [class_name] entry, if they had one. *)
Theorem failed_module_check_stops_the_call :
  forall verify load_class lc rt ld w cfg dfl m e,
    nth_error (heap w) lc = Some cfg ->
    nth_error (heap w) ld = Some dfl ->
    name_from cfg dfl "module_name" = Some m ->
    verify m = Some e ->
    let run := instantiate_class_from_config verify load_class lc rt (Some ld) w in
    fst run = Raises e
    /\ log (snd run) = (log w ++ [EvVerify m])%list
    /\ nth_error (heap (snd run)) ld = Some (dict_remove dfl "module_name")
    /\ dict_get (dict_remove dfl "module_name") "class_name"
       = dict_get dfl "class_name".
Proof.
  intros verify load_class lc rt ld w cfg dfl m e Hc Hd Em Ev run. subst run.
  rewrite (instantiate_run verify load_class lc rt ld w cfg dfl Hc Hd).
  rewrite Em. cbv zeta. rewrite Ev. simpl.
  repeat split.
  - apply (heap_set_same _ _ _ _ Hd).
  - apply dict_get_remove_other. discriminate.
Qed.

Lemma failed_module_check_stops_the_call_witness :
  let run :=
    instantiate_class_from_config
      (fun _ => Some (OtherError "PluginModuleNotFoundError"))
      example_load_class 0 None (Some 1)
      (mkWorld [[("class_name", VStr "Foo")];
                [("module_name", VStr "no.such"); ("class_name", VStr "Bar")]]
               []) in
  fst run = Raises (OtherError "PluginModuleNotFoundError")
  /\ log (snd run) = ([] ++ [EvVerify (VStr "no.such")])%list.
Proof.
  pose proof (failed_module_check_stops_the_call
                (fun _ => Some (OtherError "PluginModuleNotFoundError"))
                example_load_class 0 None 1
                (mkWorld [[("class_name", VStr "Foo")];
                          [("module_name", VStr "no.such");
                           ("class_name", VStr "Bar")]] [])
                [("class_name", VStr "Foo")]
                [("module_name", VStr "no.such"); ("class_name", VStr "Bar")]
                (VStr "no.such") (OtherError "PluginModuleNotFoundError")
                eq_refl eq_refl eq_refl eq_refl) as (H1 & H2 & _).
  split; [exact H1 | exact H2].
Defined.

Lemma dict_keys_remove {V : Type} (d : list (string * V)) (k k' : string) :
  In k' (dict_keys (dict_remove d k)) -> In k' (dict_keys d).
Proof.
  unfold dict_keys. induction d as [|[k0 v0] d IH]; simpl; [auto|].
  destruct (String.eqb k0 k); simpl; intuition.
Qed.

Lemma dict_remove_nodup {V : Type} (d : list (string * V)) (k : string) :
  NoDup (dict_keys d) -> NoDup (dict_keys (dict_remove d k)).
Proof.
  induction d as [|[k0 v0] d IH]; simpl; intros H; [constructor|].
  inversion H as [|? ? Hnotin Hnd]; subst.
  destruct (String.eqb k0 k); [now apply IH|].
  simpl. constructor; [|now apply IH].
  intros Hin. apply Hnotin. now apply (dict_keys_remove d k k0).
Qed.

(** The run of a call that finds both names, loads the class and is given
    no runtime environment. *)
Lemma instantiate_without_runtime_environment_run
      verify load_class lc ld w cfg dfl m c cls :
  nth_error (heap w) lc = Some cfg ->
  nth_error (heap w) ld = Some dfl ->
  name_from cfg dfl "module_name" = Some m ->
  verify m = None ->
  name_from cfg dfl "class_name" = Some c ->
  load_class c m = Returns cls ->
  let cfg2 := dict_remove (dict_remove cfg "module_name") "class_name" in
  let dfl2 := dict_remove (dict_remove dfl "module_name") "class_name" in
  let kwargs := dict_update dfl2 cfg2 in
  instantiate_class_from_config verify load_class lc None (Some ld) w
  = (match construct cls kwargs with
     | Raises TypeError => Raises TypeError
     | res => res
     end,
     mkWorld (heap_set (heap w) ld dfl2)
             (log w ++ EvVerify m
                :: class_name_warning cfg
                ++ [EvLoadClass c m; EvConstruct kwargs])%list).
Proof.
  intros Hc Hd Em Ev Ec Hl cfg2 dfl2 kwargs.
  rewrite (instantiate_run verify load_class lc None ld w cfg dfl Hc Hd).
  rewrite Em. cbv zeta. rewrite Ev.
  set (dfl1 := dict_remove dfl "module_name").
  set (w1 := with_events (with_object w ld dfl1) [EvVerify m]).
  assert (H1 : nth_error (heap w1) ld = Some dfl1)
    by (apply (heap_set_same _ _ _ _ Hd)).
  rewrite (take_class_name_run w1 (dict_remove cfg "module_name") dfl1 ld H1).
  assert (Hs : supplied (dict_remove cfg "module_name") "class_name"
               = supplied cfg "class_name")
    by (apply supplied_remove_other; discriminate).
  assert (Hg : dict_get dfl1 "class_name" = dict_get dfl "class_name")
    by (apply dict_get_remove_other; discriminate).
  assert (Hn : dict_get (dict_remove (dict_remove cfg "module_name") "class_name")
                        "name"
               = dict_get cfg "name")
    by (rewrite !dict_get_remove_other by discriminate; reflexivity).
  rewrite Hs, Hg, Hn. unfold name_from in Ec. unfold class_name_warning.
  assert (Hbuild : forall w2,
             heap w2 = heap_set (heap w) ld dfl2 ->
             build_instance load_class c m cfg2 None ld w2
             = (match construct cls kwargs with
                | Raises TypeError => Raises TypeError
                | res => res
                end,
                with_events w2 [EvLoadClass c m; EvConstruct kwargs])).
  { intros w2 Hh.
    apply (build_instance_run load_class c m cfg2 None ld w2 cls dfl2 Hl).
    - rewrite Hh. apply (heap_set_same _ _ _ _ Hd).
    - reflexivity. }
  destruct (supplied cfg "class_name") as [c0|] eqn:Es.
  - injection Ec as ->.
    rewrite Hbuild by (simpl; apply heap_set_twice).
    unfold with_events, with_object, w1. simpl.
    rewrite heap_set_twice, <- app_assoc. reflexivity.
  - cbv zeta. rewrite Ec.
    rewrite Hbuild by (simpl; apply heap_set_twice).
    unfold with_events, with_object, w1. simpl.
    rewrite heap_set_twice, <- !app_assoc. reflexivity.
Qed.

(** X15. Without a runtime environment the class is called with the
    defaults overlaid by [config], and with nothing else: for every key
    other than [module_name] and [class_name] the value of [config] if it
    has one, otherwise the value of the defaults; and never a
    [module_name] or a [class_name] argument. The call returns what the
    class returns. The keys of [config] are taken to be distinct, as the
    keys of a mapping are. *)
Theorem merged_arguments_without_runtime_environment :
  forall verify load_class lc ld w cfg dfl m c cls,
    nth_error (heap w) lc = Some cfg ->
    nth_error (heap w) ld = Some dfl ->
    NoDup (dict_keys cfg) ->
    name_from cfg dfl "module_name" = Some m ->
    verify m = None ->
    name_from cfg dfl "class_name" = Some c ->
    load_class c m = Returns cls ->
    let run := instantiate_class_from_config verify load_class lc None (Some ld) w in
    exists kwargs,
      fst run = match construct cls kwargs with
                | Raises TypeError => Raises TypeError
                | res => res
                end
      /\ log (snd run)
         = (log w ++ EvVerify m
              :: class_name_warning cfg
              ++ [EvLoadClass c m; EvConstruct kwargs])%list
      /\ (forall k, k <> "module_name" -> k <> "class_name" ->
            dict_get kwargs k
            = match dict_get cfg k with
              | Some v => Some v
              | None => dict_get dfl k
              end)
      /\ dict_get kwargs "module_name" = None
      /\ dict_get kwargs "class_name" = None.
Proof.
  intros verify load_class lc ld w cfg dfl m c cls Hc Hd Hnd Em Ev Ec Hl run.
  subst run.
  rewrite (instantiate_without_runtime_environment_run verify load_class lc ld
             w cfg dfl m c cls Hc Hd Em Ev Ec Hl).
  eexists. split; [reflexivity|]. split; [reflexivity|].
  assert (Hnd2 : NoDup (dict_keys
                          (dict_remove (dict_remove cfg "module_name")
                                       "class_name")))
    by (now do 2 apply dict_remove_nodup).
  split; [|split].
  - intros k Hk1 Hk2. rewrite (dict_get_update _ _ _ Hnd2).
    rewrite !dict_get_remove_other by assumption. reflexivity.
  - rewrite (dict_get_update _ _ _ Hnd2).
    rewrite !(dict_get_remove_other _ "class_name" "module_name") by discriminate.
    now rewrite !dict_get_remove_same.
  - rewrite (dict_get_update _ _ _ Hnd2).
    now rewrite !dict_get_remove_same.
Qed.

Lemma merged_arguments_without_runtime_environment_witness :
  let cfg := [("class_name", VStr "Foo"); ("name", VStr "from-config")] in
  let dfl := [("module_name", VStr "pkg.mod"); ("name", VStr "from-defaults");
              ("conn", VStr "c")] in
  let run :=
    instantiate_class_from_config example_verify example_load_class 0 None
      (Some 1) (mkWorld [cfg; dfl] []) in
  exists kwargs,
    fst run = match construct Foo kwargs with
              | Raises TypeError => Raises TypeError
              | res => res
              end
    /\ dict_get kwargs "name" = Some (VStr "from-config")
    /\ dict_get kwargs "conn" = Some (VStr "c")
    /\ dict_get kwargs "module_name" = None.
Proof.
  cbv zeta.
  assert (Hnd : NoDup (dict_keys [("class_name", VStr "Foo");
                                  ("name", VStr "from-config")])).
  { repeat constructor; simpl; intuition discriminate. }
  destruct (merged_arguments_without_runtime_environment example_verify
              example_load_class 0 1
              (mkWorld [[("class_name", VStr "Foo"); ("name", VStr "from-config")];
                        [("module_name", VStr "pkg.mod");
                         ("name", VStr "from-defaults"); ("conn", VStr "c")]] [])
              [("class_name", VStr "Foo"); ("name", VStr "from-config")]
              [("module_name", VStr "pkg.mod"); ("name", VStr "from-defaults");
               ("conn", VStr "c")]
              (VStr "pkg.mod") (VStr "Foo") Foo
              eq_refl eq_refl Hnd eq_refl eq_refl eq_refl eq_refl)
    as (kwargs & Hres & _ & Hget & Hmod & _).
  exists kwargs. split; [exact Hres|]. split; [|split].
  - rewrite (Hget "name") by discriminate. reflexivity.
  - rewrite (Hget "conn") by discriminate. reflexivity.
  - exact Hmod.
Defined.

(** ** The dump of the keyword arguments *)

Lemma dict_get_of_key {V : Type} (d : list (string * V)) (k : string) :
  In k (dict_keys d) -> exists v, dict_get d k = Some v.
Proof.
  unfold dict_keys. induction d as [|[k0 v0] d IH]; simpl; [intros []|].
  intros [<-|H].
  - rewrite String.eqb_refl. eauto.
  - destruct (String.eqb k0 k); eauto.
Qed.

Lemma dict_get_of_item {V : Type} (d : list (string * V)) (k : string) (v : V) :
  NoDup (dict_keys d) -> In (k, v) d -> dict_get d k = Some v.
Proof.
  unfold dict_keys. induction d as [|[k0 v0] d IH]; simpl; intros Hnd [];
    inversion Hnd as [|? ? Hnotin Hnd']; subst.
  - injection H as -> ->. now rewrite String.eqb_refl.
  - destruct (String.eqb_spec k0 k) as [->|_]; [|now apply IH].
    exfalso. apply Hnotin. change k with (fst (k, v)). now apply in_map.
Qed.

(** X16. The dump never fails on a key of its own mapping, and for a
    mapping with distinct keys it is the entries of the items in
    insertion order, each a key, two tabs and the text of the value,
    joined by a newline and a tab; the dump of the empty mapping is the
    empty string. *)
Theorem format_dict_lists_the_items :
  forall str_ dict_,
    (exists text, format_dict_for_error_message str_ dict_ = Returns text)
    /\ (NoDup (dict_keys dict_) ->
        format_dict_for_error_message str_ dict_
        = Returns
            (str_join (String newline (String tab EmptyString))
               (map (fun kv => fst kv ++ String tab (String tab EmptyString)
                                 ++ str_ (snd kv))
                    dict_)))
    /\ format_dict_for_error_message str_ [] = Returns EmptyString.
Proof.
  intros str_ dict_. unfold format_dict_for_error_message.
  set (body := fun key =>
                 match dict_get dict_ key with
                 | Some v => Returns (format_entry str_ key v)
                 | None => Raises KeyError
                 end).
  split; [|split; [|reflexivity]].
  - assert (H : forall keys, incl keys (dict_keys dict_) ->
                  exists entries, comprehension body keys = Returns entries).
    { induction keys as [|k keys IH]; intros Hincl; simpl; [eauto|].
      destruct (dict_get_of_key dict_ k (Hincl k (or_introl eq_refl)))
        as [v Hv].
      destruct IH as [entries He];
        [intros x Hx; apply Hincl; right; exact Hx|].
      fold (comprehension body). unfold body at 1. rewrite Hv. simpl.
      rewrite He. simpl. eauto. }
    destruct (H (dict_keys dict_) (incl_refl _)) as [entries He].
    rewrite He. simpl. eauto.
  - intros Hnd.
    assert (H : forall items, incl items dict_ ->
                  comprehension body (dict_keys items)
                  = Returns
                      (map (fun kv => fst kv
                                        ++ String tab (String tab EmptyString)
                                        ++ str_ (snd kv))
                           items)).
    { induction items as [|[k v] items IH]; intros Hincl; simpl;
        [reflexivity|].
      fold (comprehension body). unfold body at 1.
      rewrite (dict_get_of_item dict_ k v Hnd (Hincl _ (or_introl eq_refl))).
      simpl. fold (dict_keys items).
      rewrite IH by (intros x Hx; apply Hincl; right; exact Hx).
      reflexivity. }
    rewrite (H dict_ (incl_refl _)). reflexivity.
Qed.

Lemma format_dict_lists_the_items_witness :
  format_dict_for_error_message (fun _ => "v")
    [("name", VStr "n"); ("conn", VNone)]
  = Returns
      (str_join (String newline (String tab EmptyString))
         (map (fun kv => fst kv ++ String tab (String tab EmptyString) ++ "v")
              [("name", VStr "n"); ("conn", VNone)])).
Proof.
  assert (Hnd : NoDup (dict_keys [("name", VStr "n"); ("conn", VNone)])).
  { repeat constructor; simpl; intuition discriminate. }
  exact (proj1 (proj2 (format_dict_lists_the_items (fun _ => "v")
                         [("name", VStr "n"); ("conn", VNone)])) Hnd).
Defined.

(** ** Paths relative to a file *)

Lemma append_sep_assoc (path b : string) :
  path ++ String sep b = (path ++ String sep EmptyString) ++ b.
Proof. induction path as [|c p IH]; simpl; [reflexivity | now rewrite IH]. Qed.

Lemma head_without_sep (p : string) :
  has_sep p = false -> head_to_last_sep p = EmptyString.
Proof.
  destruct p as [|c p]; simpl; [reflexivity|]. now intros ->.
Qed.

Lemma has_sep_append (d base : string) :
  has_sep (d ++ String sep base) = true.
Proof.
  induction d as [|c d IH]; simpl; [reflexivity|].
  rewrite IH. apply orb_true_r.
Qed.

Lemma head_of_dir_and_base (d base : string) :
  has_sep base = false ->
  head_to_last_sep (d ++ String sep base) = d ++ String sep EmptyString.
Proof.
  intros Hb. induction d as [|c d IH]; simpl.
  - now rewrite (head_without_sep base Hb).
  - rewrite has_sep_append, orb_true_r. now rewrite IH.
Qed.

Lemma all_sep_dir (d t : string) :
  d <> EmptyString -> endswith_sep d = false -> all_sep (d ++ t) = false.
Proof.
  induction d as [|c d IH]; intros Hne He; [contradiction|].
  destruct d as [|c' d'].
  - simpl in *. now rewrite He.
  - assert (He' : endswith_sep (String c' d') = false) by exact He.
    specialize (IH ltac:(discriminate) He').
    cbn [append all_sep] in *. rewrite IH. apply andb_false_r.
Qed.

Lemma rstrip_sep_cons (c : ascii) (x : string) :
  rstrip_sep (String c x)
  = match rstrip_sep x with
    | EmptyString =>
        if Ascii.eqb c sep then EmptyString else String c EmptyString
    | r => String c r
    end.
Proof. reflexivity. Qed.

Lemma rstrip_dir (d : string) :
  d <> EmptyString -> endswith_sep d = false ->
  rstrip_sep (d ++ String sep EmptyString) = d.
Proof.
  induction d as [|c d IH]; intros Hne He; [contradiction|].
  destruct d as [|c' d'].
  - simpl in *. now rewrite He.
  - assert (He' : endswith_sep (String c' d') = false) by exact He.
    specialize (IH ltac:(discriminate) He').
    cbn [append] in *. rewrite rstrip_sep_cons, IH. reflexivity.
Qed.

(** X17. The relative path is the tail of the result, and an absolute
    relative path is the result: whatever the file, the path returned ends
    with the relative path, and when the relative path starts with a
    separator the path returned is the relative path itself. *)
Theorem file_relative_path_ends_with_relative_path :
  forall dunderfile relative_path,
    (exists before,
        file_relative_path dunderfile relative_path = before ++ relative_path)
    /\ (startswith_sep relative_path = true ->
        file_relative_path dunderfile relative_path = relative_path).
Proof.
  intros f rel. unfold file_relative_path, path_join. split.
  - destruct (startswith_sep rel); [exists EmptyString; reflexivity|].
    destruct (is_empty (dirname f) || endswith_sep (dirname f))%bool.
    + exists (dirname f). reflexivity.
    + exists (dirname f ++ String sep EmptyString). apply append_sep_assoc.
  - now intros ->.
Qed.

Lemma file_relative_path_ends_with_relative_path_witness :
  file_relative_path "pkg/mod.py" "/etc/great_expectations.yml"
  = "/etc/great_expectations.yml".
Proof.
  exact (proj2 (file_relative_path_ends_with_relative_path "pkg/mod.py"
                  "/etc/great_expectations.yml") eq_refl).
Defined.

(** X18. A file name without a directory part: when the file has no
    separator in it, the path returned is the relative path as it is. *)
Theorem file_relative_path_of_bare_file_name :
  forall dunderfile relative_path,
    has_sep dunderfile = false ->
    dirname dunderfile = EmptyString
    /\ file_relative_path dunderfile relative_path = relative_path.
Proof.
  intros f rel H.
  assert (Hd : dirname f = EmptyString)
    by (unfold dirname; now rewrite (head_without_sep f H)).
  split; [exact Hd|].
  unfold file_relative_path, path_join. rewrite Hd. simpl.
  now destruct (startswith_sep rel).
Qed.

Lemma file_relative_path_of_bare_file_name_witness :
  file_relative_path "conftest.py" "fixtures/data.csv" = "fixtures/data.csv".
Proof.
  exact (proj2 (file_relative_path_of_bare_file_name "conftest.py"
                  "fixtures/data.csv" eq_refl)).
Defined.

(** X19. A file in a directory: when the file is a directory that is not
    empty and does not end with a separator, a separator, and a base name
    without a separator, the directory of the file is that directory, and
    a relative path that does not start with a separator is put after the
    directory and one separator. *)
Theorem file_relative_path_in_directory :
  forall d base relative_path,
    d <> EmptyString ->
    endswith_sep d = false ->
    has_sep base = false ->
    startswith_sep relative_path = false ->
    dirname (d ++ String sep base) = d
    /\ file_relative_path (d ++ String sep base) relative_path
       = d ++ String sep relative_path.
Proof.
  intros d base rel Hne He Hb Hrel.
  assert (Hd : dirname (d ++ String sep base) = d).
  { unfold dirname. rewrite (head_of_dir_and_base d base Hb).
    rewrite (all_sep_dir d (String sep EmptyString) Hne He).
    destruct d as [|c d']; [contradiction|]. simpl is_empty. cbv iota.
    simpl negb. cbv iota. apply (rstrip_dir (String c d') Hne He). }
  split; [exact Hd|].
  unfold file_relative_path, path_join. rewrite Hd, Hrel, He.
  destruct d; [contradiction | reflexivity].
Qed.

Lemma file_relative_path_in_directory_witness :
  file_relative_path ("/opt/ge/tests" ++ String sep "test_util.py")
    "fixtures/data.csv"
  = "/opt/ge/tests" ++ String sep "fixtures/data.csv".
Proof.
  assert (Hne : "/opt/ge/tests" <> EmptyString) by discriminate.
  exact (proj2 (file_relative_path_in_directory "/opt/ge/tests" "test_util.py"
                  "fixtures/data.csv" Hne eq_refl eq_refl eq_refl)).
Defined.
